(** * Metaspace allocator: free blocks, arenas and free chunk lists

    A shallow embedding of the metaspace allocation paths of
    src/hotspot/share/memory/metaspace:
    - metablock.hpp (MetaBlock),
    - classLoaderMetaspaceImpl.cpp (allocate, allocate_from_freeblocks,
      deallocate_to_free_blocks, deallocate),
    - freeBlocks.cpp (FreeBlocks::add_block, FreeBlocks::remove_block),
    - metaspaceArena.cpp (salvage_chunk, allocate, destructor),
    - freeChunkList.hpp / .cpp (FreeChunkList::add, remove,
      first_minimally_committed, verify).

    Addresses are word addresses ([MetaWord*] arithmetic is in words);
    address [0] is [nullptr].  Sizes are word counts ([size_t]).  The
    64-bit configuration is modelled ([LP64_ONLY]). *)

From Stdlib Require Import List Arith Lia Bool.
Import ListNotations.

(* ------------------------------------------------------------------ *)
(** ** MetaBlock (metablock.hpp) *)

Definition nullptr : nat := 0.
Definition BytesPerWord : nat := 8.

Record MetaBlock := {
  _base : nat;
  _word_size : nat
}.

(** [MetaBlock() : _base(nullptr), _word_size(0) {}] *)
Definition MetaBlock_empty : MetaBlock := {| _base := nullptr; _word_size := 0 |}.

(** [MetaBlock(MetaWord* p, size_t word_size) : _base(p), _word_size(0) {}]
    -- the size argument is not stored, as in the source. *)
Definition MetaBlock_mk (p : nat) (word_size : nat) : MetaBlock :=
  {| _base := p; _word_size := 0 |}.

Definition base (b : MetaBlock) : nat := _base b.
Definition word_size (b : MetaBlock) : nat := _word_size b.
Definition block_end (b : MetaBlock) : nat := _base b + _word_size b.

(** [bool is_empty() const { return _base == nullptr; }] *)
Definition is_empty (b : MetaBlock) : bool := Nat.eqb (_base b) nullptr.

(** [MetaBlock tail(size_t head_size) const] *)
Definition tail (b : MetaBlock) (head_size : nat) : MetaBlock :=
  if negb (is_empty b) then
    if Nat.ltb head_size (_word_size b)
    then MetaBlock_mk (_base b + head_size) (_word_size b - head_size)
    else MetaBlock_empty
  else MetaBlock_empty.

(** Modelled from the spec: [MetaBlock::split_off_tail], which is missing
    from metablock.hpp but called by allocate_from_freeblocks.  The spec
    says a MetaBlock "supports splitting into a head sub-range and a tail
    remainder" and that "an empty MetaBlock (null base) denotes no memory";
    the repository's test [MetaBlock_3] (test_metablock.cpp) fixes the
    argument as the size of the tail: splitting [(p, s)] at [M] leaves
    [(p, s - M)] and returns [(p + s - M, M)].  A head of zero words is
    the empty block.  Returns the new head and the tail. *)
Definition split_off_tail (b : MetaBlock) (tailsize : nat) : MetaBlock * MetaBlock :=
  if is_empty b || Nat.eqb tailsize 0 then (b, MetaBlock_empty)
  else
    let new_size := _word_size b - tailsize in
    let tl := {| _base := _base b + new_size; _word_size := tailsize |} in
    let hd := if Nat.eqb new_size 0 then MetaBlock_empty
              else {| _base := _base b; _word_size := new_size |} in
    (hd, tl).

(* ------------------------------------------------------------------ *)
(** ** Block indexes (binList.hpp, blockTree.hpp) *)

(** Modelled from the spec: [BinList32] and [BlockTree] (binList.hpp and
    blockTree.hpp are missing).  The spec: each is a recycling structure
    keyed by size; [remove_block(word_size)] "looks up an exact-or-larger
    match".  An index is the list of its blocks, most recent first;
    [add_block] stores the block as given. *)
Definition BlockIndex := list MetaBlock.

Definition index_add_block (l : BlockIndex) (b : MetaBlock) : BlockIndex := b :: l.

Fixpoint index_remove_block (l : BlockIndex) (n : nat) : MetaBlock * BlockIndex :=
  match l with
  | [] => (MetaBlock_empty, [])
  | b :: rest =>
      if Nat.leb n (_word_size b) then (b, rest)
      else let '(r, rest') := index_remove_block rest n in (r, b :: rest')
  end.

(** Modelled from the spec: the small-block cutoff, [BinList32::MaxWordSize]
    (the bin list holds sizes below 32 words, as its name says). *)
Definition BinList32_MaxWordSize : nat := 32.

(** [constexpr size_t minimum_allocation_words = LP64_ONLY(1) NOT_LP64(2);] *)
Definition minimum_allocation_words : nat := 1.

(* ------------------------------------------------------------------ *)
(** ** FreeBlocks (freeBlocks.cpp) *)

(** External collaborators of the routing decision: the class-space range
    test [Metaspace::is_in_class_space] and [sizeof(Klass)]. *)
Record Config := {
  is_in_class_space : nat -> bool;
  sizeof_Klass : nat
}.

(** [AllocationAlignmentWordSize] on 64-bit: one word. *)
Definition AllocationAlignmentWordSize : nat := 1.

(** [is_aligned(p, alignment)] on a pointer: the byte address is a multiple
    of [alignment] (bytes).  A word address [p] has byte address
    [p * BytesPerWord]. *)
Definition is_aligned_ptr (p alignment : nat) : bool :=
  Nat.eqb (Nat.modulo (p * BytesPerWord) alignment) 0.

Record FreeBlocks := {
  _small_blocks_nc : BlockIndex;
  _tree_nc : BlockIndex;
  _tree_c : BlockIndex
}.

Definition MaxSmallBlocksWordSize : nat := BinList32_MaxWordSize.

(** [void FreeBlocks::add_block(MetaBlock block)] *)
Definition FreeBlocks_add_block (cfg : Config) (fb : FreeBlocks) (block : MetaBlock)
  : FreeBlocks :=
  let is_class_space := is_in_class_space cfg (base block) in
  let aligned_for_klass := is_aligned_ptr (base block) AllocationAlignmentWordSize in
  let large_enough_for_klass := Nat.leb (sizeof_Klass cfg) (word_size block) in
  if is_class_space && aligned_for_klass && large_enough_for_klass then
    {| _small_blocks_nc := _small_blocks_nc fb; _tree_nc := _tree_nc fb;
       _tree_c := index_add_block (_tree_c fb) block |}
  else if Nat.leb MaxSmallBlocksWordSize (word_size block) then
    {| _small_blocks_nc := _small_blocks_nc fb;
       _tree_nc := index_add_block (_tree_nc fb) block; _tree_c := _tree_c fb |}
  else
    {| _small_blocks_nc := index_add_block (_small_blocks_nc fb) block;
       _tree_nc := _tree_nc fb; _tree_c := _tree_c fb |}.

(** [MetaBlock FreeBlocks::remove_block(size_t word_size, bool for_class)]
    ([is_class] in the body is the parameter [for_class]).  Note that the
    fallback lookup goes to [_small_blocks_nc] again, as in the source. *)
Definition FreeBlocks_remove_block (fb : FreeBlocks) (ws : nat) (for_class : bool)
  : MetaBlock * FreeBlocks :=
  if for_class then
    let '(r, t) := index_remove_block (_tree_c fb) ws in
    (r, {| _small_blocks_nc := _small_blocks_nc fb; _tree_nc := _tree_nc fb; _tree_c := t |})
  else
    let '(result, fb1) :=
      if Nat.ltb ws BinList32_MaxWordSize then
        let '(r, s) := index_remove_block (_small_blocks_nc fb) ws in
        (r, {| _small_blocks_nc := s; _tree_nc := _tree_nc fb; _tree_c := _tree_c fb |})
      else (MetaBlock_empty, fb) in
    if is_empty result then
      let '(r, s) := index_remove_block (_small_blocks_nc fb1) ws in
      (r, {| _small_blocks_nc := s; _tree_nc := _tree_nc fb1; _tree_c := _tree_c fb1 |})
    else (result, fb1).

(* ------------------------------------------------------------------ *)
(** ** Metachunk (metachunk.hpp) *)

(** Modelled from the spec: [Metachunk] (metachunk.hpp is missing).  The
    spec (3, 4.1): a chunk has a word size, a committed word count (the
    committed prefix) and a used word count (the bump-allocated prefix),
    [used <= committed <= size].  [allocate(n)] bumps the pointer within
    the committed prefix and fails if there is not enough committed room;
    [free_below_committed_words()] is [committed - used]. *)
Record Metachunk := {
  c_base : nat;
  c_word_size : nat;
  c_committed : nat;
  c_used : nat
}.

Definition committed_words (c : Metachunk) : nat := c_committed c.
Definition used_words (c : Metachunk) : nat := c_used c.
Definition top (c : Metachunk) : nat := c_base c + c_used c.
Definition free_words (c : Metachunk) : nat := c_word_size c - c_used c.
Definition free_below_committed_words (c : Metachunk) : nat := c_committed c - c_used c.

Definition set_used (c : Metachunk) (u : nat) : Metachunk :=
  {| c_base := c_base c; c_word_size := c_word_size c;
     c_committed := c_committed c; c_used := u |}.

(** Modelled from the spec: [Metachunk::allocate(n)]; returns the old top
    and the chunk with its used prefix grown by [n]. *)
Definition chunk_allocate (c : Metachunk) (n : nat) : option (nat * Metachunk) :=
  if Nat.leb n (free_below_committed_words c)
  then Some (top c, set_used c (c_used c + n))
  else None.

(** Modelled from the spec: [Metachunk::ensure_committed_additional(n)]:
    extend the committed prefix so that [n] more words fit, subject to the
    CommitLimiter ([limiter_ok]); failure leaves the chunk unchanged. *)
Definition ensure_committed_additional (limiter_ok : bool) (c : Metachunk) (n : nat)
  : option Metachunk :=
  if Nat.leb (c_used c + n) (c_committed c) then Some c
  else if limiter_ok && Nat.leb (c_used c + n) (c_word_size c) then
    Some {| c_base := c_base c; c_word_size := c_word_size c;
            c_committed := c_used c + n; c_used := c_used c |}
  else None.

(** Enlarging a chunk in place merges it with its buddy: one level up, i.e.
    twice the size ("Atm we only enlarge by one level (so, doubling the
    chunk in size)"). *)
Definition enlarge_one_level (c : Metachunk) : Metachunk :=
  {| c_base := c_base c; c_word_size := 2 * c_word_size c;
     c_committed := c_committed c; c_used := c_used c |}.

(* ------------------------------------------------------------------ *)
(** ** MetaspaceArena (metaspaceArena.cpp) *)

(** The collaborators of [MetaspaceArena::allocate] outside this file:
    - [env_enlarge c n]: the outcome of [attempt_enlarge_current_chunk(n)]
      for current chunk [c] (the settings switch, root-chunk and level
      checks, leader test, growth-policy check and
      [ChunkManager::attempt_enlarge_chunk]);
    - [env_commit_ok]: whether the CommitLimiter admits a further commit;
    - [env_get_chunk step n]: [ChunkManager::get_chunk] as called by
      [allocate_new_chunk(n)] when the arena already holds [step] chunks
      (the growth step deciding the preferred level). *)
Record ArenaEnv := {
  env_enlarge : Metachunk -> nat -> bool;
  env_commit_ok : bool;
  env_get_chunk : nat -> nat -> option Metachunk
}.

(** The arena: its alignment, its chunk list ([_chunks]; the current chunk
    is the first) and its contribution to the used-words counter. *)
Record MetaspaceArena := {
  _alignment_words : nat;
  _chunks : list Metachunk;
  _total_used_words_counter : nat
}.

Definition current_chunk (a : MetaspaceArena) : option Metachunk :=
  match _chunks a with [] => None | c :: _ => Some c end.

Definition with_chunks (a : MetaspaceArena) (cs : list Metachunk) : MetaspaceArena :=
  {| _alignment_words := _alignment_words a; _chunks := cs;
     _total_used_words_counter := _total_used_words_counter a |}.

Definition increment_by (a : MetaspaceArena) (n : nat) : MetaspaceArena :=
  {| _alignment_words := _alignment_words a; _chunks := _chunks a;
     _total_used_words_counter := _total_used_words_counter a + n |}.

(** [align_up(p, alignment_words * BytesPerWord)] on a word address. *)
Definition align_up (p alignment_words : nat) : nat :=
  ((p + alignment_words - 1) / alignment_words) * alignment_words.

(** [Metachunk* allocate_new_chunk(size_t requested_word_size)] *)
Definition allocate_new_chunk (env : ArenaEnv) (a : MetaspaceArena) (n : nat)
  : option Metachunk :=
  env_get_chunk env (length (_chunks a)) n.

(** [MetaBlock MetaspaceArena::salvage_chunk(Metachunk* c)]: the current
    chunk is [c]; returns the arena (chunk and counter updated) and the
    salvaged block. *)
Definition salvage_chunk (a : MetaspaceArena) : MetaspaceArena * MetaBlock :=
  match _chunks a with
  | [] => (a, MetaBlock_empty)
  | c :: rest =>
      let remaining_words := free_below_committed_words c in
      if Nat.leb minimum_allocation_words remaining_words then
        match chunk_allocate c remaining_words with
        | Some (ptr, c') =>
            (increment_by (with_chunks a (c' :: rest)) remaining_words,
             MetaBlock_mk ptr remaining_words)
        | None => (a, MetaBlock_empty)
        end
      else (a, MetaBlock_empty)
  end.

(** Step 1 of [MetaBlock MetaspaceArena::allocate(size_t requested_word_size,
    MetaBlock& wastage)] (metaspaceArena.cpp lines 209-255): allocation from
    the current chunk, with its alignment gap, enlarging the chunk in place
    or committing further as needed.  Returns the arena, the result and the
    wastage.  [result = MetaWord(p_block, requested_word_size)] is read as
    the [MetaBlock] constructor. *)
Definition allocate_from_current_chunk (env : ArenaEnv) (a : MetaspaceArena)
  (requested_word_size : nat) : MetaspaceArena * MetaBlock * MetaBlock :=
  let al := _alignment_words a in
  match _chunks a with
  | [] => (a, MetaBlock_empty, MetaBlock_empty)
  | c :: rest =>
      let alignment_gap_word_size := align_up (top c) al - top c in
      let requested_word_size_plus_gap := requested_word_size + alignment_gap_word_size in
      let '(c1, current_chunk_too_small) :=
        if Nat.ltb (free_words c) requested_word_size_plus_gap then
          if env_enlarge env c requested_word_size_plus_gap
          then (enlarge_one_level c, false)
          else (c, true)
        else (c, false) in
      let '(c2, commit_failure) :=
        if current_chunk_too_small then (c1, false)
        else match ensure_committed_additional (env_commit_ok env) c1
                     requested_word_size_plus_gap with
             | Some c' => (c', false)
             | None => (c1, true)
             end in
      if negb current_chunk_too_small && negb commit_failure then
        match chunk_allocate c2 requested_word_size_plus_gap with
        | Some (p_gap, c3) =>
            let p_block := align_up p_gap al in
            (with_chunks a (c3 :: rest),
             MetaBlock_mk p_block requested_word_size,
             MetaBlock_mk p_gap alignment_gap_word_size)
        | None => (with_chunks a (c2 :: rest), MetaBlock_empty, MetaBlock_empty)
        end
      else (with_chunks a (c2 :: rest), MetaBlock_empty, MetaBlock_empty)
  end.

(** Step 2 (lines 257-292): when step 1 gave no result, get a new chunk,
    salvage the old current chunk into the wastage block, make the new
    chunk current and allocate from it.  The source allocates from the new
    chunk but never assigns [result]. *)
Definition allocate_from_new_chunk (env : ArenaEnv) (a1 : MetaspaceArena)
  (wastage : MetaBlock) (requested_word_size : nat) : MetaspaceArena * MetaBlock :=
  match allocate_new_chunk env a1 requested_word_size with
  | None => (a1, wastage)
  | Some new_chunk =>
      let '(a1', w) :=
        match current_chunk a1 with
        | Some _ => salvage_chunk a1
        | None => (a1, wastage)
        end in
      (* _chunks.add(new_chunk); then allocate from it *)
      let nc := match chunk_allocate new_chunk requested_word_size with
                | Some (_, nc') => nc'
                | None => new_chunk
                end in
      (with_chunks a1' (nc :: _chunks a1'), w)
  end.

(** [MetaBlock MetaspaceArena::allocate(size_t requested_word_size,
    MetaBlock& wastage)]: returns the arena, the result and the wastage
    (the caller passes an empty wastage block). *)
Definition MetaspaceArena_allocate (env : ArenaEnv) (a : MetaspaceArena)
  (requested_word_size : nat) : MetaspaceArena * MetaBlock * MetaBlock :=
  let '(a1, result, wastage) := allocate_from_current_chunk env a requested_word_size in
  let '(a2, wastage2) :=
    if is_empty result then allocate_from_new_chunk env a1 wastage requested_word_size
    else (a1, wastage) in
  (* accounting *)
  let a3 := if is_empty result then a2 else increment_by a2 requested_word_size in
  (a3, result, wastage2).

(** [MetaspaceArena::~MetaspaceArena()]: returns the chunks handed back to
    the ChunkManager and the counter after [decrement_by]. *)
Fixpoint sum_used_words (cs : list Metachunk) : nat :=
  match cs with [] => 0 | c :: r => used_words c + sum_used_words r end.

Definition MetaspaceArena_destroy (a : MetaspaceArena) : list Metachunk * nat :=
  (_chunks a, _total_used_words_counter a - sum_used_words (_chunks a)).

(** [void usage_numbers(size_t* p_used_words, size_t* p_committed_words,
    size_t* p_capacity_words) const]: used, committed and capacity words
    summed over the chunk list. *)
Definition usage_numbers (a : MetaspaceArena) : nat * nat * nat :=
  fold_left (fun '(used, comm, cap) c =>
               (used + used_words c, comm + committed_words c, cap + c_word_size c))
            (_chunks a) (0, 0, 0).

(* ------------------------------------------------------------------ *)
(** ** ClassLoaderMetaspaceImpl (classLoaderMetaspaceImpl.cpp) *)

Record CLMSImpl := {
  _binlist_nc : BlockIndex;
  _blocktree_nc : BlockIndex;
  _blocktree_c : BlockIndex;
  _arena_nc : MetaspaceArena;
  _arena_c : MetaspaceArena;
  _klass_alignment : nat
}.

Definition set_binlist_nc (s : CLMSImpl) (l : BlockIndex) : CLMSImpl :=
  {| _binlist_nc := l; _blocktree_nc := _blocktree_nc s; _blocktree_c := _blocktree_c s;
     _arena_nc := _arena_nc s; _arena_c := _arena_c s; _klass_alignment := _klass_alignment s |}.
Definition set_blocktree_nc (s : CLMSImpl) (l : BlockIndex) : CLMSImpl :=
  {| _binlist_nc := _binlist_nc s; _blocktree_nc := l; _blocktree_c := _blocktree_c s;
     _arena_nc := _arena_nc s; _arena_c := _arena_c s; _klass_alignment := _klass_alignment s |}.
Definition set_blocktree_c (s : CLMSImpl) (l : BlockIndex) : CLMSImpl :=
  {| _binlist_nc := _binlist_nc s; _blocktree_nc := _blocktree_nc s; _blocktree_c := l;
     _arena_nc := _arena_nc s; _arena_c := _arena_c s; _klass_alignment := _klass_alignment s |}.
Definition set_arena (s : CLMSImpl) (is_class : bool) (a : MetaspaceArena) : CLMSImpl :=
  {| _binlist_nc := _binlist_nc s; _blocktree_nc := _blocktree_nc s;
     _blocktree_c := _blocktree_c s;
     _arena_nc := if is_class then _arena_nc s else a;
     _arena_c := if is_class then a else _arena_c s;
     _klass_alignment := _klass_alignment s |}.

(** [void deallocate_to_free_blocks(MetaBlock block)] *)
Definition deallocate_to_free_blocks (cfg : Config) (s : CLMSImpl) (block : MetaBlock)
  : CLMSImpl :=
  if Nat.leb minimum_allocation_words (word_size block) then
    let is_class_space := is_in_class_space cfg (base block) in
    let aligned_for_klass := is_aligned_ptr (base block) (_klass_alignment s) in
    let large_enough_for_klass := Nat.leb (sizeof_Klass cfg) (word_size block) in
    if is_class_space && aligned_for_klass && large_enough_for_klass then
      set_blocktree_c s (index_add_block (_blocktree_c s) block)
    else if Nat.leb BinList32_MaxWordSize (word_size block) then
      set_blocktree_nc s (index_add_block (_blocktree_nc s) block)
    else
      set_binlist_nc s (index_add_block (_binlist_nc s) block)
  else s.

(** [MetaBlock allocate_from_freeblocks(size_t word_size, bool is_class)] *)
Definition allocate_from_freeblocks (cfg : Config) (s : CLMSImpl) (ws : nat) (is_class : bool)
  : MetaBlock * CLMSImpl :=
  let '(result, s1) :=
    if is_class then
      let '(r, t) := index_remove_block (_blocktree_c s) ws in (r, set_blocktree_c s t)
    else
      let '(r0, s0) :=
        if Nat.ltb ws BinList32_MaxWordSize then
          let '(r, l) := index_remove_block (_binlist_nc s) ws in (r, set_binlist_nc s l)
        else (MetaBlock_empty, s) in
      if is_empty r0 then
        let '(r, t) := index_remove_block (_blocktree_nc s0) ws in (r, set_blocktree_nc s0 t)
      else (r0, s0) in
  if negb (is_empty result) then
    let '(result', remainder) := split_off_tail result ws in
    let s2 := if Nat.ltb minimum_allocation_words (word_size remainder)
              then deallocate_to_free_blocks cfg s1 remainder else s1 in
    (result', s2)
  else (result, s1).

(** The body of [MetaBlock allocate(size_t word_size, bool is_class)] up to
    its closing brace: the state it leaves and its local [result]. *)
Definition allocate_body (cfg : Config) (env : ArenaEnv) (s : CLMSImpl) (ws : nat)
  (is_class : bool) : CLMSImpl * MetaBlock :=
  let '(result, s1) := allocate_from_freeblocks cfg s ws is_class in
  if is_empty result then
    let arena := if is_class then _arena_c s1 else _arena_nc s1 in
    let '(arena', result', wastage) := MetaspaceArena_allocate env arena ws in
    let s2 := set_arena s1 is_class arena' in
    let s3 := if negb (is_empty wastage) then deallocate_to_free_blocks cfg s2 wastage else s2 in
    (s3, result')
  else (s1, result).

(** [MetaBlock ClassLoaderMetaspaceImpl::allocate(size_t word_size, bool is_class)].
    The function has no [return] statement: control flows off its end, so
    no value is returned to the caller ([None]). *)
Definition ClassLoaderMetaspaceImpl_allocate (cfg : Config) (env : ArenaEnv) (s : CLMSImpl)
  (ws : nat) (is_class : bool) : CLMSImpl * option MetaBlock :=
  let '(s', _) := allocate_body cfg env s ws is_class in (s', None).

(** [void ClassLoaderMetaspaceImpl::deallocate(MetaBlock block)] *)
Definition ClassLoaderMetaspaceImpl_deallocate (cfg : Config) (s : CLMSImpl) (block : MetaBlock)
  : CLMSImpl :=
  deallocate_to_free_blocks cfg s block.

(* ------------------------------------------------------------------ *)
(** ** FreeChunkList (freeChunkList.hpp, freeChunkList.cpp) *)

(** A free chunk list ([MetachunkList _list]) from front to back.  A chunk
    is identified by its base address. *)
Definition FreeChunkList := list Metachunk.

(** [void FreeChunkList::add(Metachunk* c)]: uncommitted chunks go to the
    back ([push_back]), the others to the front ([push_front]). *)
Definition FreeChunkList_add (l : FreeChunkList) (c : Metachunk) : FreeChunkList :=
  if Nat.eqb (committed_words c) 0 then l ++ [c] else c :: l.

(** [DlList::remove(T* p)]: unlinks node [p] from wherever it is. *)
Fixpoint FreeChunkList_remove (l : FreeChunkList) (c : Metachunk) : FreeChunkList :=
  match l with
  | [] => []
  | d :: r => if Nat.eqb (c_base d) (c_base c) then r else d :: FreeChunkList_remove r c
  end.

(** [Metachunk* remove_first()] *)
Definition FreeChunkList_remove_first (l : FreeChunkList) : option Metachunk * FreeChunkList :=
  match l with [] => (None, []) | c :: r => (Some c, r) end.

(** [Metachunk* first_minimally_committed(size_t min_committed_words) const]:
    the [while] loop skips chunks with [0 < committed < min], then the
    chunk it stopped at is returned if it is committed far enough. *)
Fixpoint first_minimally_committed (l : FreeChunkList) (min_committed_words : nat)
  : option Metachunk :=
  match l with
  | [] => None
  | c :: r =>
      if Nat.ltb (committed_words c) min_committed_words && Nat.ltb 0 (committed_words c)
      then first_minimally_committed r min_committed_words
      else if Nat.leb min_committed_words (committed_words c) then Some c else None
  end.

(** The ordering check of [FreeChunkList::verify()]: once a fully
    uncommitted chunk has been seen ([last->committed_words() == 0]), every
    following chunk is fully uncommitted. *)
Fixpoint verify_order (seen_uncommitted : bool) (l : FreeChunkList) : bool :=
  match l with
  | [] => true
  | c :: r =>
      if Nat.eqb (committed_words c) 0 then verify_order true r
      else negb seen_uncommitted && verify_order seen_uncommitted r
  end.

(** The states a free chunk list reaches from the empty list by [add],
    [remove] and [remove_first]. *)
Inductive fcl_reachable : FreeChunkList -> Prop :=
| fcl_nil : fcl_reachable []
| fcl_after_add l c : fcl_reachable l -> fcl_reachable (FreeChunkList_add l c)
| fcl_after_remove l c : fcl_reachable l -> fcl_reachable (FreeChunkList_remove l c)
| fcl_after_remove_first l : fcl_reachable l -> fcl_reachable (snd (FreeChunkList_remove_first l)).

(** Every fully uncommitted chunk lies behind every chunk with committed
    words: no committed chunk follows an uncommitted one. *)
Definition uncommitted_behind (l : FreeChunkList) : Prop :=
  forall l1 c l2 d, l = l1 ++ c :: l2 -> committed_words c = 0 -> In d l2 ->
  committed_words d = 0.

(* ------------------------------------------------------------------ *)
(** ** MetaBlock::aligned_block (metablock.hpp) *)

(** [MetaBlock aligned_block(size_t word_alignment) const]: the first
    address at or after [_base] aligned to [word_alignment] words, if it
    lies before [end()]. *)
Definition aligned_block (b : MetaBlock) (word_alignment : nat) : MetaBlock :=
  if negb (is_empty b) then
    let aligned_base := align_up (_base b) word_alignment in
    if Nat.ltb aligned_base (block_end b) then
      let l := _word_size b - (aligned_base - _base b) in
      MetaBlock_mk aligned_base l
    else MetaBlock_empty
  else MetaBlock_empty.

(* ------------------------------------------------------------------ *)
(** ** DlList (dllist.hpp) *)

(** The double-headed, double-linked list [DlList<T>] as the sequence of
    its nodes from [_front] to [_back], with its separate element counter
    [_num].  Node identity (pointer equality) is [node_eqb]. *)
Module DlList.
Section DlListOps.

Variable T : Type.
Variable node_eqb : T -> T -> bool.

Record t := {
  elems : list T;
  _num : nat
}.

Definition empty_list : t := {| elems := []; _num := 0 |}.

Definition front (l : t) : option T := hd_error (elems l).
Definition back (l : t) : option T := last (map Some (elems l)) None.
Definition count (l : t) : nat := _num l.
Definition is_empty_list (l : t) : bool := Nat.eqb (count l) 0.

(** [void reset()] *)
Definition reset (l : t) : t := empty_list.

(** [void push_front(T* p)] via [prepend_single]: an empty list
    ([_front == nullptr]) is [set(p)], which sets the counter to 1. *)
Definition push_front (l : t) (p : T) : t :=
  match elems l with
  | [] => {| elems := [p]; _num := 1 |}
  | _ => {| elems := p :: elems l; _num := _num l + 1 |}
  end.

(** [void push_back(T* p)] via [append_single]. *)
Definition push_back (l : t) (p : T) : t :=
  match elems l with
  | [] => {| elems := [p]; _num := 1 |}
  | _ => {| elems := elems l ++ [p]; _num := _num l + 1 |}
  end.

Fixpoint unlink (xs : list T) (p : T) : list T :=
  match xs with
  | [] => []
  | x :: r => if node_eqb x p then r else x :: unlink r p
  end.

(** [void remove(T* p)]: unlinks node [p] and decrements the counter. *)
Definition remove (l : t) (p : T) : t :=
  {| elems := unlink (elems l) p; _num := _num l - 1 |}.

(** [T* pop_front()]: removes and returns the front node. *)
Definition pop_front (l : t) : option T * t :=
  match elems l with
  | [] => (None, l)
  | p :: _ => (Some p, remove l p)
  end.

(** [T* pop_back()]: removes and returns the back node ([remove(_back)]
    unlinks the last node). *)
Definition pop_back (l : t) : option T * t :=
  match rev (elems l) with
  | [] => (None, l)
  | p :: _ => (Some p, {| elems := removelast (elems l); _num := _num l - 1 |})
  end.

(** [void add_list_at_front(DlList<T>& o)] via [prepend_chain]; returns this
    list and the emptied [o]. *)
Definition add_list_at_front (l o : t) : t * t :=
  if negb (is_empty_list o) then
    match elems l with
    | [] => ({| elems := elems o; _num := count o |}, reset o)
    | _ => ({| elems := elems o ++ elems l; _num := _num l + count o |}, reset o)
    end
  else (l, o).

(** [void add_list_at_back(DlList<T>& o)] via [append_chain]. *)
Definition add_list_at_back (l o : t) : t * t :=
  if negb (is_empty_list o) then
    match elems l with
    | [] => ({| elems := elems o; _num := count o |}, reset o)
    | _ => ({| elems := elems l ++ elems o; _num := _num l + count o |}, reset o)
    end
  else (l, o).

(** The counter matches the node chain. *)
Definition counter_ok (l : t) : Prop := _num l = length (elems l).

End DlListOps.
Arguments elems {T} t.
Arguments _num {T} t.
Arguments empty_list {T}.
Arguments is_empty_list {T} l.
Arguments reset {T} l.
Arguments front {T} l.
Arguments back {T} l.
Arguments count {T} l.
Arguments push_front {T} l p.
Arguments push_back {T} l p.
Arguments remove {T} node_eqb l p.
Arguments unlink {T} node_eqb xs p.
Arguments pop_front {T} node_eqb l.
Arguments pop_back {T} l.
Arguments add_list_at_front {T} l o.
Arguments add_list_at_back {T} l o.
Arguments counter_ok {T} l.
End DlList.

(* ------------------------------------------------------------------ *)
(** ** Histogram (histogram.hpp) *)








(* ------------------------------------------------------------------ *)
(** ** FreeChunkListVector (freeChunkList.hpp, freeChunkList.cpp) *)

(** [FreeChunkList _lists[NUM_CHUNK_LEVELS]]: the list of level [l] is the
    [l]-th entry. *)
Definition FreeChunkListVector := list FreeChunkList.

Definition list_for_level (v : FreeChunkListVector) (lvl : nat) : FreeChunkList :=
  nth lvl v [].

Fixpoint set_nth {A} (l : list A) (i : nat) (x : A) : list A :=
  match l, i with
  | [], _ => []
  | _ :: r, 0 => x :: r
  | y :: r, S i' => y :: set_nth r i' x
  end.

(** [list->remove(c)] on the list of level [lvl]. *)
Definition remove_at_level (v : FreeChunkListVector) (lvl : nat) (c : Metachunk)
  : FreeChunkListVector :=
  set_nth v lvl (FreeChunkList_remove (list_for_level v lvl) c).

(** [void FreeChunkListVector::add(Metachunk* c)] for a chunk of level [lvl]. *)
Definition FreeChunkListVector_add (v : FreeChunkListVector) (lvl : nat) (c : Metachunk)
  : FreeChunkListVector :=
  set_nth v lvl (FreeChunkList_add (list_for_level v lvl) c).

(** [int FreeChunkListVector::num_chunks() const] *)
Definition FreeChunkListVector_num_chunks (v : FreeChunkListVector) : nat :=
  fold_right (fun l acc => length l + acc) 0 v.

(** The loop of [search_chunk_ascending] from level [lvl], [k] levels to go. *)
Fixpoint search_ascending_from (v : FreeChunkListVector) (lvl k m : nat)
  : option Metachunk * FreeChunkListVector :=
  match k with
  | 0 => (None, v)
  | S k' =>
      match first_minimally_committed (list_for_level v lvl) m with
      | Some c => (Some c, remove_at_level v lvl c)
      | None => search_ascending_from v (S lvl) k' m
      end
  end.

(** [Metachunk* search_chunk_ascending(level, max_level, min_committed_words)]:
    levels [level .. max_level]. *)
Definition search_chunk_ascending (v : FreeChunkListVector) (level max_level m : nat)
  : option Metachunk * FreeChunkListVector :=
  search_ascending_from v level (S max_level - level) m.

(** [Metachunk* search_chunk_descending(level, min_committed_words)]:
    levels [level] down to [LOWEST_CHUNK_LEVEL] (0). *)
Fixpoint search_chunk_descending (v : FreeChunkListVector) (level m : nat)
  : option Metachunk * FreeChunkListVector :=
  match first_minimally_committed (list_for_level v level) m with
  | Some c => (Some c, remove_at_level v level c)
  | None =>
      match level with
      | 0 => (None, v)
      | S l' => search_chunk_descending v l' m
      end
  end.

(* ------------------------------------------------------------------ *)
(** ** VirtualSpaceList (virtualSpaceList.cpp) *)

(** Root chunk size [chunklevel::MAX_CHUNK_WORD_SIZE] and
    [Settings::virtual_space_node_default_word_size()]. *)
Record VSLConfig := {
  MAX_CHUNK_WORD_SIZE : nat;
  virtual_space_node_default_word_size : nat
}.

(** Modelled from the spec: [VirtualSpaceNode] (virtualSpaceNode.hpp and
    .cpp are missing).  The spec (3, 4.2): a node is "one OS-level
    reservation, subdivided into root chunks as they are handed out; tracks
    how much of its address range has been carved".  A node is its range
    [vsn_base, vsn_base + vsn_word_size) with the first [vsn_used] words
    carved; [allocate_root_chunk()] carves the next root chunk, or returns
    null when less than a root chunk is left.  Root chunks come out
    uncommitted ("no memory is committed yet"). *)
Record VirtualSpaceNode := {
  vsn_base : nat;
  vsn_word_size : nat;
  vsn_used : nat
}.

Definition vsn_free_words (n : VirtualSpaceNode) : nat := vsn_word_size n - vsn_used n.

Definition root_chunk_at (vc : VSLConfig) (b : nat) : Metachunk :=
  {| c_base := b; c_word_size := MAX_CHUNK_WORD_SIZE vc; c_committed := 0; c_used := 0 |}.

Definition vsn_allocate_root_chunk (vc : VSLConfig) (n : VirtualSpaceNode)
  : option Metachunk * VirtualSpaceNode :=
  if Nat.leb (MAX_CHUNK_WORD_SIZE vc) (vsn_free_words n) then
    (Some (root_chunk_at vc (vsn_base n + vsn_used n)),
     {| vsn_base := vsn_base n; vsn_word_size := vsn_word_size n;
        vsn_used := vsn_used n + MAX_CHUNK_WORD_SIZE vc |})
  else (None, n).

(** The list, with the members virtualSpaceList.cpp uses (the class
    declaration, virtualSpaceList.hpp, is missing): its nodes, newest
    ([_first_node]) first, the salvaged root chunks
    ([_salvaged_root_chunks], a chunk list, front first) and [_can_expand]. *)
Record VirtualSpaceList := {
  _nodes : list VirtualSpaceNode;
  _salvaged_root_chunks : list Metachunk;
  _can_expand : bool
}.

Definition set_nodes (v : VirtualSpaceList) (ns : list VirtualSpaceNode) : VirtualSpaceList :=
  {| _nodes := ns; _salvaged_root_chunks := _salvaged_root_chunks v;
     _can_expand := _can_expand v |}.
Definition set_salvaged (v : VirtualSpaceList) (cs : list Metachunk) : VirtualSpaceList :=
  {| _nodes := _nodes v; _salvaged_root_chunks := cs; _can_expand := _can_expand v |}.

(** [void create_new_node(size_t word_size)]: the OS reservation is placed
    at [reserve_base]; the new node becomes [_first_node]. *)
Definition create_new_node (v : VirtualSpaceList) (ws reserve_base : nat) : VirtualSpaceList :=
  set_nodes v ({| vsn_base := reserve_base; vsn_word_size := ws; vsn_used := 0 |} :: _nodes v).

(** [Metachunk* allocate_root_chunk()] *)
Definition VirtualSpaceList_allocate_root_chunk (vc : VSLConfig) (v : VirtualSpaceList)
  (reserve_base : nat) : option Metachunk * VirtualSpaceList :=
  match _salvaged_root_chunks v with
  | c :: r => (Some c, set_salvaged v r)
  | [] =>
      let need_new := match _nodes v with
                      | [] => true
                      | n :: _ => Nat.ltb (vsn_free_words n) (MAX_CHUNK_WORD_SIZE vc)
                      end in
      let ov := if need_new then
                  if _can_expand v
                  then Some (create_new_node v (virtual_space_node_default_word_size vc)
                                             reserve_base)
                  else None
                else Some v in
      match ov with
      | None => (None, v)
      | Some v1 =>
          match _nodes v1 with
          | [] => (None, v1)
          | n :: rest => let '(c, n') := vsn_allocate_root_chunk vc n in
                         (c, set_nodes v1 (n' :: rest))
          end
      end
  end.

(** The [do ... while (c != nullptr)] loop of [salvage_first_node()]; the
    loop carves at least one word per round, so [fuel] = free words + 1
    rounds suffice. *)
Fixpoint salvage_loop (vc : VSLConfig) (n : VirtualSpaceNode) (salv : list Metachunk)
  (fuel : nat) : VirtualSpaceNode * list Metachunk :=
  match fuel with
  | 0 => (n, salv)
  | S f =>
      match vsn_allocate_root_chunk vc n with
      | (Some c, n') => salvage_loop vc n' (salv ++ [c]) f
      | (None, _) => (n, salv)
      end
  end.

(** [void salvage_first_node()] *)
Definition salvage_first_node (vc : VSLConfig) (v : VirtualSpaceList) : VirtualSpaceList :=
  match _nodes v with
  | [] => v
  | n :: rest =>
      let '(n', salv) := salvage_loop vc n (_salvaged_root_chunks v) (S (vsn_free_words n)) in
      {| _nodes := n' :: rest; _salvaged_root_chunks := salv; _can_expand := _can_expand v |}
  end.

(** The [for (int i = 0; i < num; i ++)] loop of
    [allocate_multiple_root_chunks]: [out->push_back] of each root chunk
    carved from the first node. *)
Fixpoint allocate_n_root_chunks (vc : VSLConfig) (v : VirtualSpaceList) (k : nat)
  (out : list Metachunk) : VirtualSpaceList * list Metachunk :=
  match k with
  | 0 => (v, out)
  | S k' =>
      match _nodes v with
      | [] => (v, out)
      | n :: rest =>
          match vsn_allocate_root_chunk vc n with
          | (Some c, n') => allocate_n_root_chunks vc (set_nodes v (n' :: rest)) k' (out ++ [c])
          | (None, _) => (v, out)
          end
      end
  end.

(** [bool allocate_multiple_root_chunks(int num, MetachunkList* out)]:
    returns the result, the list and the chunks of [out]. *)
Definition allocate_multiple_root_chunks (vc : VSLConfig) (v : VirtualSpaceList) (num : nat)
  (out : list Metachunk) (reserve_base : nat) : bool * VirtualSpaceList * list Metachunk :=
  let needed_words := num * MAX_CHUNK_WORD_SIZE vc in
  let need_new := match _nodes v with
                  | [] => true
                  | n :: _ => Nat.ltb (vsn_free_words n) needed_words
                  end in
  if need_new then
    if _can_expand v then
      let v1 := match _nodes v with [] => v | _ => salvage_first_node vc v end in
      let node_size := Nat.max needed_words (virtual_space_node_default_word_size vc) in
      let v2 := create_new_node v1 node_size reserve_base in
      let '(v3, out') := allocate_n_root_chunks vc v2 num out in
      (true, v3, out')
    else (false, v, out)
  else
    let '(v3, out') := allocate_n_root_chunks vc v num out in
    (true, v3, out').

(* ================================================================== *)
(** * Properties *)

(** ** Free chunk lists *)

Section FreeChunkListOrder.

Lemma verify_order_weaken l z :
  verify_order true l = true -> verify_order z l = true.
Proof.
  induction l as [|c r IH]; simpl; auto.
  destruct (Nat.eqb (committed_words c) 0); auto.
  simpl; discriminate.
Qed.

Lemma verify_order_remove l z c :
  verify_order z l = true -> verify_order z (FreeChunkList_remove l c) = true.
Proof.
  revert z; induction l as [|d r IH]; intros z H; simpl in *; auto.
  destruct (Nat.eqb (c_base d) (c_base c)).
  - destruct (Nat.eqb (committed_words d) 0).
    + now apply verify_order_weaken.
    + now apply andb_prop in H as [_ H].
  - simpl. destruct (Nat.eqb (committed_words d) 0); auto.
    apply andb_prop in H as [Hz H]. now rewrite Hz, IH.
Qed.

Lemma verify_order_snoc_uncommitted l z c :
  committed_words c = 0 -> verify_order z l = true -> verify_order z (l ++ [c]) = true.
Proof.
  intros Hc; revert z; induction l as [|d r IH]; intros z H; simpl in *.
  - now rewrite Hc.
  - destruct (Nat.eqb (committed_words d) 0); auto.
    apply andb_prop in H as [Hz H]. now rewrite Hz, IH.
Qed.

Lemma verify_order_add l c :
  verify_order false l = true -> verify_order false (FreeChunkList_add l c) = true.
Proof.
  intros H; unfold FreeChunkList_add.
  destruct (Nat.eqb (committed_words c) 0) eqn:E.
  - apply verify_order_snoc_uncommitted; auto. now apply Nat.eqb_eq.
  - simpl. now rewrite E.
Qed.

Lemma verify_order_reachable l : fcl_reachable l -> verify_order false l = true.
Proof.
  induction 1 as [| l c _ IH | l c _ IH | l _ IH].
  - reflexivity.
  - now apply verify_order_add.
  - now apply verify_order_remove.
  - destruct l as [|d r]; simpl in *; auto.
    destruct (Nat.eqb (committed_words d) 0); [now apply verify_order_weaken | auto].
Qed.

Lemma verify_order_true_all l :
  verify_order true l = true -> forall d, In d l -> committed_words d = 0.
Proof.
  induction l as [|c r IH]; simpl; [tauto|].
  destruct (Nat.eqb (committed_words c) 0) eqn:E; [|discriminate].
  intros H d [<-|Hd]; [now apply Nat.eqb_eq | auto].
Qed.

Lemma verify_order_uncommitted_behind l z :
  verify_order z l = true -> uncommitted_behind l.
Proof.
  intros H l1 c l2 d -> Hc Hd.
  revert z H; induction l1 as [|x r IH]; intros z H; simpl in H.
  - rewrite (proj2 (Nat.eqb_eq _ _) Hc) in H.
    exact (verify_order_true_all l2 H d Hd).
  - destruct (Nat.eqb (committed_words x) 0); [now apply (IH true)|].
    apply andb_prop in H as [_ H]. now apply (IH z).
Qed.

Lemma uncommitted_behind_cons c r : uncommitted_behind (c :: r) -> uncommitted_behind r.
Proof.
  intros H l1 x l2 d E. apply (H (c :: l1) x l2 d). now rewrite E.
Qed.

End FreeChunkListOrder.

(** C9: [FreeChunkList::add] puts a chunk with zero committed words at the
    back of the list and any other chunk at the front; hence in every list
    state reached by adds and removes, each fully uncommitted chunk lies
    behind every chunk with committed words. *)
Theorem FreeChunkList_add_keeps_uncommitted_behind (l : FreeChunkList) :
  fcl_reachable l ->
  uncommitted_behind l /\
  (forall c, FreeChunkList_add l c =
             if Nat.eqb (committed_words c) 0 then l ++ [c] else c :: l).
Proof.
  intros H; split.
  - apply (verify_order_uncommitted_behind l false), verify_order_reachable, H.
  - reflexivity.
Qed.

(** C10: on a list where every fully uncommitted chunk lies behind every
    chunk with committed words, [first_minimally_committed(m)] returns a
    chunk of the list with at least [m] committed words exactly when the
    list holds such a chunk, and null otherwise, although its loop stops
    at the first fully uncommitted chunk. *)
Theorem first_minimally_committed_complete (l : FreeChunkList) (m : nat) :
  uncommitted_behind l ->
  (forall c, first_minimally_committed l m = Some c -> In c l /\ m <= committed_words c) /\
  ((exists c, In c l /\ m <= committed_words c) <-> first_minimally_committed l m <> None).
Proof.
  induction l as [|c r IH]; intros Hl.
  - simpl. split; [discriminate|]. split; [intros (c & [] & _) | tauto].
  - specialize (IH (uncommitted_behind_cons c r Hl)) as [IH1 IH2]. simpl.
    destruct (Nat.ltb (committed_words c) m) eqn:Elt;
      destruct (Nat.ltb 0 (committed_words c)) eqn:Epos; simpl.
    + apply Nat.ltb_lt in Elt. split.
      * intros d Hd. destruct (IH1 d Hd). auto.
      * rewrite <- IH2. split; intros (d & Hd & Hm).
        -- destruct Hd as [<-|Hd]; [lia|eauto].
        -- eauto.
    + apply Nat.ltb_lt in Elt. apply Nat.ltb_ge in Epos.
      destruct (Nat.leb m (committed_words c)) eqn:E; [apply Nat.leb_le in E; lia|].
      split; [discriminate|]. split; [|tauto].
      intros (d & [<-|Hd] & Hm); [lia|].
      assert (committed_words d = 0) by (apply (Hl [] c r d); auto; lia). lia.
    + apply Nat.ltb_ge in Elt. rewrite (proj2 (Nat.leb_le _ _) Elt).
      split; [intros d [= <-]; auto|]. split; [discriminate | eauto].
    + apply Nat.ltb_ge in Elt. rewrite (proj2 (Nat.leb_le _ _) Elt).
      split; [intros d [= <-]; auto|]. split; [discriminate | eauto].
Qed.

(** ** Concrete configurations *)

(** A configuration in which no address is in class space, with a
    [sizeof(Klass)] of 64. *)
Definition cfg_no_class_space : Config :=
  {| is_in_class_space := fun _ => false; sizeof_Klass := 64 |}.

(** A chunk manager that always hands out a fresh, fully committed chunk of
    256 words at address 512, never enlarges and never hits the commit
    limit. *)
Definition env_fresh_chunk : ArenaEnv :=
  {| env_enlarge := fun _ _ => false;
     env_commit_ok := true;
     env_get_chunk := fun _ _ =>
       Some {| c_base := 512; c_word_size := 256; c_committed := 256; c_used := 0 |} |}.

Definition empty_arena (al : nat) : MetaspaceArena :=
  {| _alignment_words := al; _chunks := []; _total_used_words_counter := 0 |}.

Definition empty_clms : CLMSImpl :=
  {| _binlist_nc := []; _blocktree_nc := []; _blocktree_c := [];
     _arena_nc := empty_arena AllocationAlignmentWordSize; _arena_c := empty_arena 2;
     _klass_alignment := 2 |}.

Definition empty_freeblocks : FreeBlocks :=
  {| _small_blocks_nc := []; _tree_nc := []; _tree_c := [] |}.

(** ** MetaBlock *)

(** C2: the two-argument constructor does not store the word count: the
    block built from [(4096, 16)] has base 4096 but zero words, and its
    [tail(4)] is the empty block instead of [(4100, 12)]. *)
Theorem MetaBlock_ctor_loses_word_size :
  base (MetaBlock_mk 4096 16) = 4096 /\
  word_size (MetaBlock_mk 4096 16) = 0 /\
  tail (MetaBlock_mk 4096 16) 4 = MetaBlock_empty.
Proof. repeat split; reflexivity. Qed.

(** ** FreeBlocks *)

(** C6: with the small-block list empty and a 64-word block in the large
    non-class tree, [FreeBlocks::remove_block(40, false)] returns the empty
    block: the fallback lookup goes to the small-block list again and the
    non-class tree is never consulted. *)
Theorem FreeBlocks_remove_block_skips_tree_nc :
  FreeBlocks_remove_block
    {| _small_blocks_nc := []; _tree_nc := [{| _base := 4096; _word_size := 64 |}];
       _tree_c := [] |} 40 false
  = (MetaBlock_empty,
     {| _small_blocks_nc := []; _tree_nc := [{| _base := 4096; _word_size := 64 |}];
        _tree_c := [] |}).
Proof. reflexivity. Qed.

(** ** Splitting free blocks *)

(** C7: a request for 40 words served from a 64-word free block at 100
    returns the 24-word head [(100, 24)] and re-inserts the 40-word tail
    [(124, 40)]: [split_off_tail] is passed the requested size, which it
    takes as the size of the tail. *)
Theorem allocate_from_freeblocks_split_sizes :
  allocate_from_freeblocks cfg_no_class_space
    (set_blocktree_nc empty_clms [{| _base := 100; _word_size := 64 |}]) 40 false
  = ({| _base := 100; _word_size := 24 |},
     set_blocktree_nc empty_clms [{| _base := 124; _word_size := 40 |}]).
Proof. reflexivity. Qed.

(** ** ClassLoaderMetaspaceImpl::allocate *)

(** C1: [allocate] returns no value: whatever its body computes, control
    flows off the end of the function.  With an 8-word block at 200 in the
    bin list, a 4-word non-class request finds it (the body's [result] is
    [(200, 4)]) but nothing is returned. *)
Theorem ClassLoaderMetaspaceImpl_allocate_returns_nothing :
  (forall cfg env s ws is_class,
     snd (ClassLoaderMetaspaceImpl_allocate cfg env s ws is_class) = None) /\
  fst (allocate_from_freeblocks cfg_no_class_space
         (set_binlist_nc empty_clms [{| _base := 200; _word_size := 8 |}]) 4 false)
    = {| _base := 200; _word_size := 4 |} /\
  snd (allocate_body cfg_no_class_space env_fresh_chunk
         (set_binlist_nc empty_clms [{| _base := 200; _word_size := 8 |}]) 4 false)
    = {| _base := 200; _word_size := 4 |} /\
  snd (ClassLoaderMetaspaceImpl_allocate cfg_no_class_space env_fresh_chunk
         (set_binlist_nc empty_clms [{| _base := 200; _word_size := 8 |}]) 4 false)
    = None.
Proof.
  split; [|repeat split; reflexivity].
  intros cfg env s ws is_class. unfold ClassLoaderMetaspaceImpl_allocate.
  destruct (allocate_body cfg env s ws is_class); reflexivity.
Qed.

(** C3: deallocating the 4-word block at 1000 into an empty
    ClassLoaderMetaspaceImpl and then allocating 4 non-class words is not
    served from the free blocks: the lookup finds the block, but
    [split_off_tail(4)] splits all of it off as the tail, leaving an empty
    result; the request goes to the non-class arena, which takes a new
    chunk from the ChunkManager; and no block is returned. *)
Theorem exact_fit_reuse_goes_to_arena :
  let s1 := ClassLoaderMetaspaceImpl_deallocate cfg_no_class_space empty_clms
              {| _base := 1000; _word_size := 4 |} in
  _binlist_nc s1 = [{| _base := 1000; _word_size := 4 |}] /\
  fst (allocate_from_freeblocks cfg_no_class_space s1 4 false) = MetaBlock_empty /\
  length (_chunks (_arena_nc
    (fst (ClassLoaderMetaspaceImpl_allocate cfg_no_class_space env_fresh_chunk s1 4 false))))
    = 1 /\
  snd (ClassLoaderMetaspaceImpl_allocate cfg_no_class_space env_fresh_chunk s1 4 false)
    = None.
Proof. repeat split; reflexivity. Qed.

(** ** MetaspaceArena accounting *)

Definition arena_with_chunk (al used : nat) : MetaspaceArena :=
  {| _alignment_words := al;
     _chunks := [{| c_base := 512; c_word_size := 256; c_committed := 256; c_used := used |}];
     _total_used_words_counter := used |}.

(** C4: the used-words counter drifts from the chunks' used words.  On a
    fresh arena (no chunk, counter 0) an 8-word allocation takes a new
    chunk and uses 8 words of it, but the result stays empty and the
    counter stays 0.  On an arena with alignment 2 whose current chunk has
    3 used words (counter 3), an 8-word allocation consumes 9 words of the
    chunk (1 gap word) but raises the counter by 8 only. *)
Theorem MetaspaceArena_counter_drift :
  let '(a, r, _) := MetaspaceArena_allocate env_fresh_chunk (empty_arena 1) 8 in
  (sum_used_words (_chunks a) = 8 /\ _total_used_words_counter a = 0 /\ is_empty r = true) /\
  let '(a', r', _) := MetaspaceArena_allocate env_fresh_chunk (arena_with_chunk 2 3) 8 in
  (sum_used_words (_chunks a') = 12 /\ _total_used_words_counter a' = 11 /\
   is_empty r' = false).
Proof. repeat split; reflexivity. Qed.

(** ** Alignment *)

Lemma align_up_aligned p al : 0 < al -> Nat.modulo (align_up p al) al = 0.
Proof. intros H. unfold align_up. apply Nat.Div0.mod_mul. Qed.

Lemma allocate_from_current_chunk_result env a n :
  snd (fst (allocate_from_current_chunk env a n)) = MetaBlock_empty \/
  exists p, snd (fst (allocate_from_current_chunk env a n))
            = MetaBlock_mk (align_up p (_alignment_words a)) n.
Proof.
  unfold allocate_from_current_chunk.
  destruct (_chunks a) as [|c rest]; [now left|].
  repeat (cbn -[align_up];
    match goal with
    | |- context [chunk_allocate ?c ?k] => destruct (chunk_allocate c k) as [[? ?]|]
    | |- context [ensure_committed_additional ?o ?c ?k] =>
        destruct (ensure_committed_additional o c k)
    | |- context [if ?b then _ else _] => destruct b
    end);
  cbn -[align_up]; first [now left | right; eexists; reflexivity].
Qed.

Lemma MetaspaceArena_allocate_result env a n :
  snd (fst (MetaspaceArena_allocate env a n)) = snd (fst (allocate_from_current_chunk env a n)).
Proof.
  unfold MetaspaceArena_allocate.
  destruct (allocate_from_current_chunk env a n) as [[a1 r] w]; cbn.
  destruct (is_empty r); [destruct (allocate_from_new_chunk env a1 w n)|]; reflexivity.
Qed.

Lemma MetaspaceArena_allocate_aligned env a n :
  0 < _alignment_words a ->
  is_empty (snd (fst (MetaspaceArena_allocate env a n))) = false ->
  Nat.modulo (base (snd (fst (MetaspaceArena_allocate env a n)))) (_alignment_words a) = 0.
Proof.
  rewrite MetaspaceArena_allocate_result. intros Hal.
  destruct (allocate_from_current_chunk_result env a n) as [-> | [p ->]].
  - discriminate.
  - intros _. now apply align_up_aligned.
Qed.

(** C5: the arena keeps its side of the alignment promise (a non-empty
    block from [MetaspaceArena::allocate] has a base aligned to the arena's
    [alignment_words]; the fresh-chunk path never yields a non-empty block)
    but [ClassLoaderMetaspaceImpl::allocate] hands nothing back: a class
    allocation of 8 words on a class arena with alignment 2 whose chunk has
    3 used words computes the aligned block at 516 and returns no value. *)
Theorem class_allocation_aligned_but_not_returned :
  (forall env a n, 0 < _alignment_words a ->
     is_empty (snd (fst (MetaspaceArena_allocate env a n))) = false ->
     Nat.modulo (base (snd (fst (MetaspaceArena_allocate env a n)))) (_alignment_words a) = 0) /\
  (forall env a1 n, snd (fst (MetaspaceArena_allocate env (with_chunks a1 []) n))
                      = MetaBlock_empty) /\
  snd (allocate_body cfg_no_class_space env_fresh_chunk
         (set_arena empty_clms true (arena_with_chunk 2 3)) 8 true) = MetaBlock_mk 516 8 /\
  Nat.modulo 516 2 = 0 /\
  snd (ClassLoaderMetaspaceImpl_allocate cfg_no_class_space env_fresh_chunk
         (set_arena empty_clms true (arena_with_chunk 2 3)) 8 true) = None.
Proof.
  split; [exact MetaspaceArena_allocate_aligned|].
  split; [|repeat split; reflexivity].
  intros env a1 n. rewrite MetaspaceArena_allocate_result. reflexivity.
Qed.

(** ** Minimum size of stored free blocks *)

Definition at_least_minimum (b : MetaBlock) : Prop :=
  minimum_allocation_words <= word_size b.

(** All three free-block structures of a ClassLoaderMetaspaceImpl hold only
    blocks of at least [minimum_allocation_words] words. *)
Definition free_blocks_min_ok (s : CLMSImpl) : Prop :=
  Forall at_least_minimum (_binlist_nc s) /\
  Forall at_least_minimum (_blocktree_nc s) /\
  Forall at_least_minimum (_blocktree_c s).

Section MinimumSize.

Variable cfg : Config.

Lemma index_remove_block_forall (P : MetaBlock -> Prop) l n :
  Forall P l -> Forall P (snd (index_remove_block l n)).
Proof.
  induction l as [|b r IH]; intros H; [constructor|].
  inversion H as [|? ? Hb Hr]; subst. simpl.
  destruct (Nat.leb n (_word_size b)); [assumption|].
  specialize (IH Hr). destruct (index_remove_block r n); simpl in *; auto.
Qed.

Lemma deallocate_to_free_blocks_min_ok s b :
  free_blocks_min_ok s -> free_blocks_min_ok (deallocate_to_free_blocks cfg s b).
Proof.
  intros (H1 & H2 & H3). unfold deallocate_to_free_blocks.
  destruct (Nat.leb minimum_allocation_words (word_size b)) eqn:E;
    [apply Nat.leb_le in E | now split].
  destruct (_ && _ && _); [|destruct (Nat.leb _ _)];
    repeat split; cbn; auto; constructor; auto.
Qed.

Lemma set_arena_min_ok s k a :
  free_blocks_min_ok (set_arena s k a) <-> free_blocks_min_ok s.
Proof. reflexivity. Qed.

Lemma allocate_from_freeblocks_min_ok s ws k :
  free_blocks_min_ok s -> free_blocks_min_ok (snd (allocate_from_freeblocks cfg s ws k)).
Proof.
  intros Hs.
  assert (Hlook : free_blocks_min_ok
    (snd (if k then
            let '(r, t) := index_remove_block (_blocktree_c s) ws in (r, set_blocktree_c s t)
          else
            let '(r0, s0) :=
              if Nat.ltb ws BinList32_MaxWordSize then
                let '(r, l) := index_remove_block (_binlist_nc s) ws in (r, set_binlist_nc s l)
              else (MetaBlock_empty, s) in
            if is_empty r0 then
              let '(r, t) := index_remove_block (_blocktree_nc s0) ws in
              (r, set_blocktree_nc s0 t)
            else (r0, s0)))).
  { destruct Hs as (H1 & H2 & H3). destruct k.
    - pose proof (index_remove_block_forall _ _ ws H3) as H.
      destruct (index_remove_block (_blocktree_c s) ws); now repeat split.
    - assert (Hs0 : forall r0 s0,
                (r0, s0) = (if Nat.ltb ws BinList32_MaxWordSize then
                   let '(r, l) := index_remove_block (_binlist_nc s) ws in (r, set_binlist_nc s l)
                 else (MetaBlock_empty, s)) -> free_blocks_min_ok s0).
      { intros r0 s0 E. destruct (Nat.ltb ws BinList32_MaxWordSize).
        - pose proof (index_remove_block_forall _ _ ws H1) as H.
          destruct (index_remove_block (_binlist_nc s) ws). inversion E; subst.
          now repeat split.
        - inversion E; subst. now repeat split. }
      destruct (if Nat.ltb ws BinList32_MaxWordSize then _ else _) as [r0 s0] eqn:E.
      specialize (Hs0 r0 s0 eq_refl) as (G1 & G2 & G3).
      destruct (is_empty r0); [|now repeat split].
      pose proof (index_remove_block_forall _ _ ws G2) as H.
      destruct (index_remove_block (_blocktree_nc s0) ws); now repeat split. }
  unfold allocate_from_freeblocks.
  destruct (if k then _ else _) as [result s1]; cbn in Hlook.
  destruct (negb (is_empty result)); [|exact Hlook].
  destruct (split_off_tail result ws) as [hd rem]; cbn [snd].
  destruct (Nat.ltb minimum_allocation_words (word_size rem));
    [now apply deallocate_to_free_blocks_min_ok | exact Hlook].
Qed.

Lemma allocate_body_min_ok env s ws k :
  free_blocks_min_ok s -> free_blocks_min_ok (fst (allocate_body cfg env s ws k)).
Proof.
  intros Hs. unfold allocate_body.
  pose proof (allocate_from_freeblocks_min_ok s ws k Hs) as H1.
  destruct (allocate_from_freeblocks cfg s ws k) as [result s1]; cbn in H1.
  destruct (is_empty result); [|exact H1].
  destruct (MetaspaceArena_allocate env _ ws) as [[a' r'] w]; cbn.
  destruct (negb (is_empty w)).
  - apply deallocate_to_free_blocks_min_ok. now apply set_arena_min_ok.
  - now apply set_arena_min_ok.
Qed.

End MinimumSize.

(** C8 (as amended): every path by which a ClassLoaderMetaspaceImpl stores
    a block into its free-block structures -- explicit deallocate, the
    deposit of arena wastage, and the re-insert of a split remainder, all
    routed through [deallocate_to_free_blocks] -- keeps all three
    structures free of blocks below [minimum_allocation_words]. *)
Theorem clms_free_blocks_at_least_minimum (cfg : Config) (env : ArenaEnv) (s : CLMSImpl) :
  free_blocks_min_ok s ->
  (forall b, free_blocks_min_ok (ClassLoaderMetaspaceImpl_deallocate cfg s b)) /\
  (forall ws is_class,
     free_blocks_min_ok (fst (ClassLoaderMetaspaceImpl_allocate cfg env s ws is_class))).
Proof.
  intros Hs. split.
  - intros b. now apply deallocate_to_free_blocks_min_ok.
  - intros ws k. unfold ClassLoaderMetaspaceImpl_allocate.
    pose proof (allocate_body_min_ok cfg env s ws k Hs).
    destruct (allocate_body cfg env s ws k); exact H.
Qed.

(** C8: [FreeBlocks::add_block] has no size check: a zero-word block at
    4096 is stored in the small-block list. *)
Lemma FreeBlocks_add_block_stores_empty_size :
  FreeBlocks_add_block cfg_no_class_space empty_freeblocks
    {| _base := 4096; _word_size := 0 |}
  = {| _small_blocks_nc := [{| _base := 4096; _word_size := 0 |}]; _tree_nc := [];
       _tree_c := [] |} /\
  ~ at_least_minimum {| _base := 4096; _word_size := 0 |}.
Proof.
  split; [reflexivity|].
  unfold at_least_minimum, minimum_allocation_words, word_size; cbn; lia.
Qed.

(** ** Witnesses *)

Definition chunk_uncommitted : Metachunk :=
  {| c_base := 64; c_word_size := 64; c_committed := 0; c_used := 0 |}.
Definition chunk_committed : Metachunk :=
  {| c_base := 128; c_word_size := 64; c_committed := 5; c_used := 0 |}.

Definition two_chunk_list : FreeChunkList :=
  FreeChunkList_add (FreeChunkList_add [] chunk_uncommitted) chunk_committed.

Lemma FreeChunkList_add_keeps_uncommitted_behind_witness :
  fcl_reachable two_chunk_list /\ uncommitted_behind two_chunk_list.
Proof.
  assert (H : fcl_reachable two_chunk_list)
    by (apply fcl_after_add, fcl_after_add, fcl_nil).
  split; [exact H | exact (proj1 (FreeChunkList_add_keeps_uncommitted_behind _ H))].
Defined.

Lemma first_minimally_committed_complete_witness :
  uncommitted_behind two_chunk_list /\
  first_minimally_committed two_chunk_list 3 = Some chunk_committed /\
  ((exists c, In c two_chunk_list /\ 3 <= committed_words c) <->
   first_minimally_committed two_chunk_list 3 <> None).
Proof.
  assert (H : uncommitted_behind two_chunk_list)
    by (apply (verify_order_uncommitted_behind _ false); reflexivity).
  split; [exact H|]. split; [reflexivity|].
  exact (proj2 (first_minimally_committed_complete two_chunk_list 3 H)).
Defined.

Lemma clms_free_blocks_at_least_minimum_witness :
  free_blocks_min_ok empty_clms /\
  free_blocks_min_ok (ClassLoaderMetaspaceImpl_deallocate cfg_no_class_space empty_clms
                        {| _base := 1000; _word_size := 4 |}).
Proof.
  assert (H : free_blocks_min_ok empty_clms) by (repeat split; constructor).
  split; [exact H|].
  exact (proj1 (clms_free_blocks_at_least_minimum cfg_no_class_space env_fresh_chunk
                  empty_clms H) _).
Defined.

(* ================================================================== *)
(** * Further properties of the code *)

(** ** DlList *)

Section DlListProps.

Variable T : Type.
Variable node_eqb : T -> T -> bool.

Lemma dl_length_removelast (xs : list T) : xs <> [] -> length (removelast xs) = length xs - 1.
Proof.
  intros H. destruct (exists_last H) as (ys & y & ->).
  rewrite removelast_last, length_app. simpl. lia.
Qed.



End DlListProps.

(** [DlList] keeps its element counter equal to the length of its node
    chain through [push_front], [push_back], [pop_front] and [pop_back]
    (node identity being decidable, [node_eqb x x] holds). *)
Theorem DlList_single_ops_keep_counter (T : Type) (node_eqb : T -> T -> bool)
  (Hrefl : forall x, node_eqb x x = true) (l : DlList.t T) (p : T) :
  DlList.counter_ok l ->
  DlList.counter_ok (DlList.push_front l p) /\ DlList.counter_ok (DlList.push_back l p) /\
  DlList.counter_ok (snd (DlList.pop_front node_eqb l)) /\
  DlList.counter_ok (snd (DlList.pop_back l)).
Proof.
  destruct l as [xs n]; unfold DlList.counter_ok; simpl. intros ->.
  repeat split.
  - unfold DlList.push_front; simpl. destruct xs; simpl; lia.
  - unfold DlList.push_back; simpl. destruct xs as [|x r]; [reflexivity|].
    simpl. rewrite length_app. simpl. lia.
  - unfold DlList.pop_front; simpl. destruct xs as [|x r]; [reflexivity|].
    unfold DlList.remove; simpl. rewrite Hrefl. simpl. lia.
  - unfold DlList.pop_back; simpl. destruct (rev xs) eqn:E; [reflexivity|].
    simpl. rewrite dl_length_removelast; [reflexivity|].
    intros ->. discriminate.
Qed.


(** Pushing a node and popping it from the same end gives back the node
    and the list as it was. *)
Theorem DlList_push_pop_roundtrip (T : Type) (node_eqb : T -> T -> bool)
  (Hrefl : forall x, node_eqb x x = true) (l : DlList.t T) (p : T) :
  DlList.counter_ok l ->
  DlList.pop_front node_eqb (DlList.push_front l p) = (Some p, l) /\
  DlList.pop_back (DlList.push_back l p) = (Some p, l).
Proof.
  intros Hc. destruct l as [xs n] eqn:El. unfold DlList.counter_ok in Hc; simpl in Hc.
  split.
  - unfold DlList.push_front; simpl. destruct xs as [|x r].
    + subst n. unfold DlList.pop_front, DlList.remove; simpl. now rewrite Hrefl.
    + unfold DlList.pop_front, DlList.remove; simpl. rewrite Hrefl.
      repeat f_equal. lia.
  - unfold DlList.push_back; simpl. destruct xs as [|x r].
    + subst n. reflexivity.
    + unfold DlList.pop_back; cbn [DlList.elems DlList._num].
      rewrite rev_app_distr, removelast_last. cbn [rev app].
      repeat f_equal. simpl. lia.
Qed.

(** [add_list_at_front(o)] and [add_list_at_back(o)] splice the chain of
    [o] before, resp. after, this list's chain, add up the counters and
    leave [o] empty. *)
Theorem DlList_add_list_splices (T : Type) (l o : DlList.t T) :
  DlList.counter_ok l -> DlList.counter_ok o ->
  DlList.elems (fst (DlList.add_list_at_front l o)) = DlList.elems o ++ DlList.elems l /\
  DlList.counter_ok (fst (DlList.add_list_at_front l o)) /\
  snd (DlList.add_list_at_front l o) = DlList.empty_list /\
  DlList.elems (fst (DlList.add_list_at_back l o)) = DlList.elems l ++ DlList.elems o /\
  DlList.counter_ok (fst (DlList.add_list_at_back l o)) /\
  snd (DlList.add_list_at_back l o) = DlList.empty_list.
Proof.
  destruct l as [xs n], o as [ys k]; unfold DlList.counter_ok; simpl. intros -> ->.
  unfold DlList.add_list_at_front, DlList.add_list_at_back, DlList.is_empty_list,
    DlList.count, DlList.reset; simpl.
  destruct ys as [|y ys']; simpl.
  - rewrite app_nil_r. repeat split.
  - destruct xs as [|x xs']; simpl; rewrite ?app_nil_r; repeat split;
      rewrite ?length_app; simpl; lia.
Qed.

(** ** Histogram *)








(** ** FreeChunkListVector *)

Lemma first_minimally_committed_some l m c :
  first_minimally_committed l m = Some c -> In c l /\ m <= committed_words c.
Proof.
  induction l as [|d r IH]; simpl; [discriminate|].
  destruct (Nat.ltb (committed_words d) m && Nat.ltb 0 (committed_words d)).
  - intros H. destruct (IH H). auto.
  - destruct (Nat.leb m (committed_words d)) eqn:E; [|discriminate].
    intros [= <-]. apply Nat.leb_le in E. auto.
Qed.

Lemma first_minimally_committed_none_ordered l z m :
  verify_order z l = true -> first_minimally_committed l m = None ->
  forall c, In c l -> committed_words c < m.
Proof.
  revert z; induction l as [|d r IH]; intros z Hv Hn c Hc; [destruct Hc|].
  simpl in Hv, Hn.
  destruct (Nat.ltb (committed_words d) m) eqn:Elt;
    destruct (Nat.ltb 0 (committed_words d)) eqn:Epos; simpl in Hn.
  - apply Nat.ltb_lt in Elt, Epos.
    assert (Hv' : verify_order z r = true).
    { destruct (Nat.eqb (committed_words d) 0) eqn:E0; [apply Nat.eqb_eq in E0; lia|].
      now apply andb_prop in Hv as [_ Hv]. }
    destruct Hc as [<-|Hc]; [assumption | exact (IH z Hv' Hn c Hc)].
  - apply Nat.ltb_lt in Elt. apply Nat.ltb_ge in Epos.
    rewrite (proj2 (Nat.eqb_eq _ 0)) in Hv by lia.
    destruct Hc as [<-|Hc]; [assumption|].
    rewrite (verify_order_true_all r Hv c Hc). lia.
  - apply Nat.ltb_ge in Elt. rewrite (proj2 (Nat.leb_le _ _) Elt) in Hn. discriminate.
  - apply Nat.ltb_ge in Elt. rewrite (proj2 (Nat.leb_le _ _) Elt) in Hn. discriminate.
Qed.

Lemma FreeChunkList_remove_length l c :
  In c l -> S (length (FreeChunkList_remove l c)) = length l.
Proof.
  induction l as [|d r IH]; simpl; [tauto|]. intros Hin.
  destruct (Nat.eqb (c_base d) (c_base c)) eqn:E; [reflexivity|].
  destruct Hin as [<-|Hin]; [rewrite Nat.eqb_refl in E; discriminate|].
  simpl. now rewrite IH.
Qed.

Lemma set_nth_length {A} (v : list A) i x : length (set_nth v i x) = length v.
Proof. revert i; induction v as [|y r IH]; intros [|i]; simpl; auto. Qed.

Lemma nth_set_nth {A} (v : list A) i j x d :
  i < length v -> nth j (set_nth v i x) d = if Nat.eqb j i then x else nth j v d.
Proof.
  revert i j; induction v as [|y r IH]; intros [|i] [|j] H; simpl in *; try lia; auto.
  apply IH. lia.
Qed.

Lemma num_chunks_set_nth v i l' :
  i < length v ->
  FreeChunkListVector_num_chunks (set_nth v i l') + length (list_for_level v i)
  = FreeChunkListVector_num_chunks v + length l'.
Proof.
  unfold list_for_level.
  revert i; induction v as [|y r IH]; intros [|i] H; simpl in *; try lia.
  specialize (IH i ltac:(lia)). lia.
Qed.

Lemma list_for_level_in_range v lvl c : In c (list_for_level v lvl) -> lvl < length v.
Proof.
  unfold list_for_level. intros H.
  destruct (Nat.lt_ge_cases lvl (length v)) as [|Hge]; [assumption|].
  rewrite nth_overflow in H by assumption. destruct H.
Qed.

Lemma remove_at_level_num_chunks v lvl c :
  In c (list_for_level v lvl) ->
  S (FreeChunkListVector_num_chunks (remove_at_level v lvl c)) = FreeChunkListVector_num_chunks v.
Proof.
  intros Hin. pose proof (list_for_level_in_range v lvl c Hin) as Hlt.
  pose proof (num_chunks_set_nth v lvl (FreeChunkList_remove (list_for_level v lvl) c) Hlt).
  pose proof (FreeChunkList_remove_length _ _ Hin).
  unfold remove_at_level. lia.
Qed.

Lemma search_ascending_from_spec v lvl k m :
  (forall c v', search_ascending_from v lvl k m = (Some c, v') ->
     exists l, lvl <= l < lvl + k /\ In c (list_for_level v l) /\ m <= committed_words c /\
               v' = remove_at_level v l c) /\
  (forall v', search_ascending_from v lvl k m = (None, v') ->
     (forall l, lvl <= l < lvl + k -> verify_order false (list_for_level v l) = true) ->
     v' = v /\ forall l c, lvl <= l < lvl + k -> In c (list_for_level v l) ->
                           committed_words c < m).
Proof.
  revert lvl; induction k as [|k IH]; intros lvl; simpl.
  - split; [discriminate|]. intros v' [= <-] _. split; [reflexivity | lia].
  - destruct (first_minimally_committed (list_for_level v lvl) m) as [d|] eqn:E.
    + split; [|discriminate].
      intros c v' [= <- <-]. destruct (first_minimally_committed_some _ _ _ E).
      exists lvl. repeat split; auto; lia.
    + destruct (IH (S lvl)) as [IH1 IH2]. split.
      * intros c v' H. destruct (IH1 c v' H) as (l & Hl & R).
        exists l. split; [lia | exact R].
      * intros v' H Hord. destruct (IH2 v' H) as [-> Hall];
          [intros l Hl; apply Hord; lia|].
        split; [reflexivity|]. intros l c Hl Hc.
        destruct (Nat.eq_dec l lvl) as [->|Hne].
        -- exact (first_minimally_committed_none_ordered _ false m (Hord lvl ltac:(lia)) E c Hc).
        -- apply (Hall l); [lia | exact Hc].
Qed.

(** [search_chunk_ascending(level, max_level, m)]: a chunk it returns was
    in the list of some level between [level] and [max_level], has at least
    [m] committed words and has been unlinked from that list (one chunk
    fewer in the vector); if it returns null and every list in the range is
    ordered as [FreeChunkList::add] keeps it, no chunk in the range has [m]
    committed words and the vector is unchanged. *)
Theorem search_chunk_ascending_spec (v : FreeChunkListVector) (level max_level m : nat) :
  (forall c v', search_chunk_ascending v level max_level m = (Some c, v') ->
     exists lvl, level <= lvl <= max_level /\ In c (list_for_level v lvl) /\
       m <= committed_words c /\ v' = remove_at_level v lvl c /\
       S (FreeChunkListVector_num_chunks v') = FreeChunkListVector_num_chunks v) /\
  (forall v', search_chunk_ascending v level max_level m = (None, v') ->
     (forall lvl, level <= lvl <= max_level -> verify_order false (list_for_level v lvl) = true) ->
     v' = v /\ forall lvl c, level <= lvl <= max_level -> In c (list_for_level v lvl) ->
                             committed_words c < m).
Proof.
  unfold search_chunk_ascending.
  destruct (search_ascending_from_spec v level (S max_level - level) m) as [H1 H2]. split.
  - intros c v' H. destruct (H1 c v' H) as (l & Hl & Hin & Hm & ->).
    exists l. repeat split; auto; try lia. now apply remove_at_level_num_chunks.
  - intros v' H Hord. destruct (H2 v' H) as [-> Hall]; [intros l Hl; apply Hord; lia|].
    split; [reflexivity|]. intros l c Hl. apply Hall. lia.
Qed.

(** [search_chunk_descending(level, m)]: the same for the levels from
    [level] down to the root chunk level 0. *)
Theorem search_chunk_descending_spec (v : FreeChunkListVector) (level m : nat) :
  (forall c v', search_chunk_descending v level m = (Some c, v') ->
     exists lvl, lvl <= level /\ In c (list_for_level v lvl) /\
       m <= committed_words c /\ v' = remove_at_level v lvl c /\
       S (FreeChunkListVector_num_chunks v') = FreeChunkListVector_num_chunks v) /\
  (forall v', search_chunk_descending v level m = (None, v') ->
     (forall lvl, lvl <= level -> verify_order false (list_for_level v lvl) = true) ->
     v' = v /\ forall lvl c, lvl <= level -> In c (list_for_level v lvl) ->
                             committed_words c < m).
Proof.
  induction level as [|level IH]; simpl;
    destruct (first_minimally_committed (list_for_level v _) m) as [d|] eqn:E.
  - split; [|discriminate]. intros c v' [= <- <-].
    destruct (first_minimally_committed_some _ _ _ E) as [Hin Hm].
    exists 0. repeat split; auto. now apply remove_at_level_num_chunks.
  - split; [discriminate|]. intros v' [= <-] Hord. split; [reflexivity|].
    intros lvl c Hl Hc. assert (lvl = 0) as -> by lia.
    exact (first_minimally_committed_none_ordered _ false m (Hord 0 ltac:(lia)) E c Hc).
  - split; [|discriminate]. intros c v' [= <- <-].
    destruct (first_minimally_committed_some _ _ _ E) as [Hin Hm].
    exists (S level). repeat split; auto. now apply remove_at_level_num_chunks.
  - destruct IH as [IH1 IH2]. split.
    + intros c v' H. destruct (IH1 c v' H) as (l & Hl & R). exists l. split; [lia | exact R].
    + intros v' H Hord. destruct (IH2 v' H) as [-> Hall]; [intros l Hl; apply Hord; lia|].
      split; [reflexivity|]. intros l c Hl Hc.
      destruct (Nat.eq_dec l (S level)) as [->|Hne].
      * exact (first_minimally_committed_none_ordered _ false m (Hord (S level) ltac:(lia)) E c Hc).
      * apply (Hall l); [lia | exact Hc].
Qed.

(** [FreeChunkListVector::add(c)] puts the chunk into the list of its
    level, adds one to [num_chunks()] and keeps every level's list ordered
    (fully uncommitted chunks behind the others). *)
Theorem FreeChunkListVector_add_spec (v : FreeChunkListVector) (lvl : nat) (c : Metachunk) :
  lvl < length v ->
  (forall l, verify_order false (list_for_level v l) = true) ->
  In c (list_for_level (FreeChunkListVector_add v lvl c) lvl) /\
  FreeChunkListVector_num_chunks (FreeChunkListVector_add v lvl c)
    = S (FreeChunkListVector_num_chunks v) /\
  (forall l, verify_order false (list_for_level (FreeChunkListVector_add v lvl c) l) = true).
Proof.
  intros Hlt Hord. unfold FreeChunkListVector_add.
  assert (Hadd : forall x, list_for_level (set_nth v lvl (FreeChunkList_add (list_for_level v lvl) c)) x
                 = if Nat.eqb x lvl then FreeChunkList_add (list_for_level v lvl) c
                   else list_for_level v x).
  { intros x. unfold list_for_level at 1. now rewrite nth_set_nth. }
  repeat split.
  - rewrite Hadd, Nat.eqb_refl. unfold FreeChunkList_add.
    destruct (Nat.eqb (committed_words c) 0);
      [rewrite in_app_iff; right; left; reflexivity | left; reflexivity].
  - pose proof (num_chunks_set_nth v lvl (FreeChunkList_add (list_for_level v lvl) c) Hlt).
    unfold FreeChunkList_add in *.
    destruct (Nat.eqb (committed_words c) 0); rewrite ?length_app in *; simpl in *; lia.
  - intros l. rewrite Hadd. destruct (Nat.eqb l lvl); [apply verify_order_add|]; apply Hord.
Qed.

(** ** MetaBlock::aligned_block *)

Lemma align_up_ge p al : 0 < al -> p <= align_up p al.
Proof.
  intros H. unfold align_up.
  pose proof (Nat.div_mod (p + al - 1) al ltac:(lia)).
  pose proof (Nat.mod_upper_bound (p + al - 1) al ltac:(lia)). nia.
Qed.

Lemma align_up_zero p : align_up p 0 = 0.
Proof. unfold align_up. rewrite Nat.mul_0_r. reflexivity. Qed.

(** A non-empty block from [aligned_block(wa)] starts at an address
    aligned to [wa] inside the original block, at or above its base and
    below its end; the constructor it goes through drops the size, so the
    block has word size 0. *)
Theorem aligned_block_inside (b : MetaBlock) (wa : nat) :
  0 < wa -> is_empty (aligned_block b wa) = false ->
  Nat.modulo (base (aligned_block b wa)) wa = 0 /\
  base b <= base (aligned_block b wa) < block_end b /\
  word_size (aligned_block b wa) = 0.
Proof.
  intros Hwa. unfold aligned_block.
  destruct (negb (is_empty b)); [|discriminate].
  destruct (Nat.ltb (align_up (_base b) wa) (block_end b)) eqn:E; [|discriminate].
  apply Nat.ltb_lt in E. intros _. cbn.
  split; [now apply align_up_aligned|]. split; [|reflexivity].
  split; [now apply align_up_ge | exact E].
Qed.

(** ** MetaspaceArena *)

(** The chunk invariant: used <= committed <= size. *)
Definition chunk_ok (c : Metachunk) : Prop :=
  c_used c <= c_committed c <= c_word_size c.

Lemma chunk_allocate_some c k p c' :
  chunk_allocate c k = Some (p, c') ->
  p = top c /\ c' = set_used c (c_used c + k) /\ k <= free_below_committed_words c.
Proof.
  unfold chunk_allocate. destruct (Nat.leb k (free_below_committed_words c)) eqn:E;
    [|discriminate].
  intros [= <- <-]. apply Nat.leb_le in E. auto.
Qed.

Lemma chunk_allocate_ok c k p c' :
  chunk_ok c -> chunk_allocate c k = Some (p, c') -> chunk_ok c'.
Proof.
  intros Hc H. apply chunk_allocate_some in H as (_ & -> & Hk).
  unfold chunk_ok, free_below_committed_words in *. cbn. lia.
Qed.

Lemma ensure_committed_additional_some o c k c' :
  ensure_committed_additional o c k = Some c' ->
  c_base c' = c_base c /\ c_used c' = c_used c /\ c_word_size c' = c_word_size c /\
  (chunk_ok c -> chunk_ok c').
Proof.
  unfold ensure_committed_additional, chunk_ok.
  destruct (Nat.leb (c_used c + k) (c_committed c)); [intros [= <-]; auto|].
  destruct (o && Nat.leb (c_used c + k) (c_word_size c)) eqn:E; [|discriminate].
  intros [= <-]. apply andb_prop in E as [_ E]. apply Nat.leb_le in E. cbn.
  repeat split; auto; lia.
Qed.

Lemma enlarge_one_level_ok c : chunk_ok c -> chunk_ok (enlarge_one_level c).
Proof. unfold chunk_ok; cbn. lia. Qed.

(** The chunks of step 1 of [allocate]: the current chunk may be enlarged,
    committed further and bumped; the others are untouched. *)
Lemma allocate_from_current_chunk_chunks env a n a1 r w :
  allocate_from_current_chunk env a n = (a1, r, w) ->
  _alignment_words a1 = _alignment_words a /\
  _total_used_words_counter a1 = _total_used_words_counter a /\
  (_chunks a = [] -> a1 = a /\ r = MetaBlock_empty /\ w = MetaBlock_empty) /\
  forall c rest, _chunks a = c :: rest ->
    exists c', _chunks a1 = c' :: rest /\ c_base c' = c_base c /\
      (chunk_ok c -> chunk_ok c') /\
      (is_empty r = false ->
         base r = align_up (top c) (_alignment_words a) /\
         top c' = align_up (top c) (_alignment_words a) + n /\ base w = top c).
Proof.
  unfold allocate_from_current_chunk.
  destruct (_chunks a) as [|c rest] eqn:Ec.
  { intros [= <- <- <-]. repeat split; auto. discriminate. }
  set (k := n + (align_up (top c) (_alignment_words a) - top c)).
  destruct (if Nat.ltb (free_words c) k then _ else _) as [c1 too_small] eqn:E1.
  assert (H1 : c_base c1 = c_base c /\ c_used c1 = c_used c /\ (chunk_ok c -> chunk_ok c1)).
  { destruct (Nat.ltb (free_words c) k); [destruct (env_enlarge env c k)|];
      inversion E1; subst; cbn; auto using enlarge_one_level_ok. }
  destruct (if too_small then _ else _) as [c2 cf] eqn:E2.
  assert (H2 : c_base c2 = c_base c1 /\ c_used c2 = c_used c1 /\ (chunk_ok c1 -> chunk_ok c2)).
  { destruct too_small; [inversion E2; subst; auto|].
    destruct (ensure_committed_additional _ c1 k) as [c'|] eqn:E; inversion E2; subst; auto.
    apply ensure_committed_additional_some in E. tauto. }
  assert (Hsame : forall x y, (with_chunks a (c2 :: rest), MetaBlock_empty, MetaBlock_empty)
                              = (a1, x, y) -> is_empty x = true /\ a1 = with_chunks a (c2 :: rest)).
  { intros x y [= <- <- <-]. auto. }
  intros Hres. split; [|split]; [| |split; [discriminate|]].
  1-2: destruct (negb too_small && negb cf);
       [destruct (chunk_allocate c2 k) as [[? ?]|]|]; inversion Hres; reflexivity.
  intros c0 rest0 [= <- <-].
  destruct (negb too_small && negb cf);
    [destruct (chunk_allocate c2 k) as [[p c3]|] eqn:E4|].
  - inversion Hres; subst. exists c3.
    pose proof (fun Hc => chunk_allocate_ok c2 k p c3 Hc E4) as Hok.
    apply chunk_allocate_some in E4 as (-> & -> & _). cbn.
    split; [reflexivity|]. split; [lia|]. split.
    + intros Hc. apply Hok. exact (proj2 (proj2 H2) (proj2 (proj2 H1) Hc)).
    + intros Hne. assert (Htop : top c2 = top c) by (unfold top; lia).
      rewrite Htop in *. unfold is_empty in Hne. cbn in Hne |- *.
      destruct (_alignment_words a) as [|al] eqn:Eal.
      * rewrite align_up_zero in Hne. discriminate.
      * pose proof (align_up_ge (top c) (S al) ltac:(lia)).
        subst k. unfold top in *. repeat split; lia.
  - inversion Hres; subst. exists c2. split; [reflexivity|]. split; [lia|]. split.
    + intros Hc. exact (proj2 (proj2 H2) (proj2 (proj2 H1) Hc)).
    + intros Hne. cbn in Hne. discriminate.
  - inversion Hres; subst. exists c2. split; [reflexivity|]. split; [lia|]. split.
    + intros Hc. exact (proj2 (proj2 H2) (proj2 (proj2 H1) Hc)).
    + intros Hne. cbn in Hne. discriminate.
Qed.

(** [salvage_chunk] on the current chunk: it bumps the chunk's used
    prefix over all of its committed free space, so that no committed free
    space is left in it, and adds the same number of words to the
    used-words counter (the difference between the chunks' used words and
    the counter is kept); it keeps the chunk list and the chunk invariant;
    a salvaged block starts at the old top of the chunk but, built by the
    two-argument constructor, has word size 0. *)
Theorem salvage_chunk_spec (a : MetaspaceArena) :
  sum_used_words (_chunks (fst (salvage_chunk a))) + _total_used_words_counter a
    = sum_used_words (_chunks a) + _total_used_words_counter (fst (salvage_chunk a)) /\
  (forall c, current_chunk (fst (salvage_chunk a)) = Some c -> free_below_committed_words c = 0) /\
  map c_base (_chunks (fst (salvage_chunk a))) = map c_base (_chunks a) /\
  (Forall chunk_ok (_chunks a) -> Forall chunk_ok (_chunks (fst (salvage_chunk a)))) /\
  (is_empty (snd (salvage_chunk a)) = false ->
     exists c, current_chunk a = Some c /\ base (snd (salvage_chunk a)) = top c /\
               word_size (snd (salvage_chunk a)) = 0).
Proof.
  unfold salvage_chunk, current_chunk.
  destruct (_chunks a) as [|c rest] eqn:Ec.
  { cbn. rewrite ?Ec. repeat split; auto; [discriminate | intros H; cbn in H; discriminate]. }
  destruct (Nat.leb minimum_allocation_words (free_below_committed_words c)) eqn:Em.
  - unfold chunk_allocate. rewrite Nat.leb_refl. cbn [fst snd].
    unfold increment_by, with_chunks; cbn. rewrite ?Ec.
    unfold free_below_committed_words in *. repeat split.
    + unfold used_words. lia.
    + intros d [= <-]. cbn. lia.
    + intros H. inversion H as [|? ? Hc Hr]; subst. constructor; [|exact Hr].
      unfold chunk_ok in *; cbn. lia.
    + intros _. exists c. auto.
  - cbn [fst snd]. rewrite ?Ec. repeat split; auto.
    + intros d [= <-]. unfold minimum_allocation_words in Em. apply Nat.leb_gt in Em. lia.
    + intros H; cbn in H; discriminate.
Qed.

Lemma salvage_chunk_chunks a :
  exists pre, length pre <= 1 /\ _chunks (fst (salvage_chunk a)) = pre ++ tl (_chunks a) /\
  (Forall chunk_ok (_chunks a) -> Forall chunk_ok (_chunks (fst (salvage_chunk a)))).
Proof.
  unfold salvage_chunk. destruct (_chunks a) as [|c rest] eqn:Ec.
  - exists []. cbn. rewrite ?Ec. auto.
  - destruct (Nat.leb _ _).
    + unfold chunk_allocate. rewrite Nat.leb_refl. cbn.
      exists [set_used c (c_used c + free_below_committed_words c)].
      repeat split; auto. intros H. inversion H as [|? ? Hc Hr]; subst.
      constructor; [|exact Hr]. unfold chunk_ok, free_below_committed_words in *; cbn. lia.
    + exists [c]. cbn. rewrite ?Ec. auto.
Qed.

(** [MetaspaceArena::allocate] only ever changes the current chunk and may
    put one new chunk in front of it; when every chunk it gets from the
    ChunkManager satisfies the chunk invariant, it keeps the invariant for
    all chunks of the arena. *)
Theorem MetaspaceArena_allocate_keeps_chunks_ok (env : ArenaEnv) (a : MetaspaceArena) (n : nat) :
  (forall k m c, env_get_chunk env k m = Some c -> chunk_ok c) ->
  Forall chunk_ok (_chunks a) ->
  (exists pre, length pre <= 2 /\
     _chunks (fst (fst (MetaspaceArena_allocate env a n))) = pre ++ tl (_chunks a)) /\
  Forall chunk_ok (_chunks (fst (fst (MetaspaceArena_allocate env a n)))).
Proof.
  intros Henv Ha. unfold MetaspaceArena_allocate.
  destruct (allocate_from_current_chunk env a n) as [[a1 r] w] eqn:E.
  destruct (allocate_from_current_chunk_chunks env a n a1 r w E) as (_ & _ & Hnil & Hcons).
  assert (H1 : tl (_chunks a1) = tl (_chunks a) /\ length (_chunks a1) = length (_chunks a) /\
               Forall chunk_ok (_chunks a1)).
  { destruct (_chunks a) as [|c rest] eqn:Ec.
    - destruct (Hnil eq_refl) as (-> & _ & _). rewrite Ec. auto.
    - destruct (Hcons c rest eq_refl) as (c' & Hc' & _ & Hok & _).
      inversion Ha as [|? ? Hc Hr]; subst.
      rewrite Hc'. repeat split; auto. }
  destruct H1 as (Htl & Hlen & Hok1). cbn [fst].
  assert (Hfront : _chunks a1 = firstn 1 (_chunks a1) ++ tl (_chunks a1))
    by (destruct (_chunks a1); reflexivity).
  assert (Hsame : exists pre, length pre <= 2 /\ _chunks a1 = pre ++ tl (_chunks a)).
  { exists (firstn 1 (_chunks a1)). rewrite <- Htl. split; [|exact Hfront].
    destruct (_chunks a1) as [|? [|]]; cbn; lia. }
  destruct (is_empty r).
  - unfold allocate_from_new_chunk.
    destruct (allocate_new_chunk env a1 n) as [nc|] eqn:Enc.
    + assert (Hnc : chunk_ok nc) by (apply (Henv _ _ _ Enc)).
      assert (Hnc' : chunk_ok (match chunk_allocate nc n with
                               | Some (_, nc') => nc' | None => nc end)).
      { destruct (chunk_allocate nc n) as [[p nc']|] eqn:Ea; [|exact Hnc].
        exact (chunk_allocate_ok nc n p nc' Hnc Ea). }
      assert (H2 : exists pre2, length pre2 <= 1 /\
                    _chunks (fst (match current_chunk a1 with
                                  | Some _ => salvage_chunk a1
                                  | None => (a1, w) end)) = pre2 ++ tl (_chunks a1) /\
                    Forall chunk_ok (_chunks (fst (match current_chunk a1 with
                                  | Some _ => salvage_chunk a1
                                  | None => (a1, w) end)))).
      { destruct (current_chunk a1).
        - destruct (salvage_chunk_chunks a1) as (pre2 & ? & ? & ?). eauto.
        - exists (firstn 1 (_chunks a1)). cbn. split; [|split; [exact Hfront | exact Hok1]].
          destruct (_chunks a1) as [|? [|]]; cbn; lia. }
      destruct (match current_chunk a1 with Some _ => salvage_chunk a1 | None => (a1, w) end)
        as [a1' w'] eqn:Es.
      destruct H2 as (pre2 & Hl2 & Hch2 & Hok2). cbn in Hch2, Hok2 |- *.
      split; [|constructor; auto].
      exists ((match chunk_allocate nc n with Some (_, nc') => nc' | None => nc end) :: pre2).
      rewrite Hch2, Htl. cbn. split; [lia | reflexivity].
    + cbn. split; [exact Hsame | exact Hok1].
  - cbn. split; [exact Hsame | exact Hok1].
Qed.

Lemma usage_numbers_fold cs u cm cap :
  fold_left (fun '(used, comm, cap) c =>
               (used + used_words c, comm + committed_words c, cap + c_word_size c))
            cs (u, cm, cap)
  = (u + sum_used_words cs, cm + list_sum (map committed_words cs),
     cap + list_sum (map c_word_size cs)).
Proof.
  revert u cm cap; induction cs as [|c r IH]; intros u cm cap; cbn.
  - f_equal; [f_equal|]; lia.
  - rewrite IH. unfold list_sum. f_equal; [f_equal|]; lia.
Qed.

(** [usage_numbers] reports as used words exactly the used words of the
    chunks (the sum [~MetaspaceArena] hands back to the counter), and under
    the chunk invariant used <= committed <= capacity. *)
Theorem usage_numbers_ordered (a : MetaspaceArena) :
  Forall chunk_ok (_chunks a) ->
  let '(used, comm, cap) := usage_numbers a in
  used = sum_used_words (_chunks a) /\ used <= comm <= cap.
Proof.
  intros H. unfold usage_numbers. rewrite usage_numbers_fold. cbn.
  induction H as [|c r Hc Hr IH]; cbn; [lia|].
  unfold chunk_ok, used_words, committed_words, list_sum in *. lia.
Qed.

(** A block that [MetaspaceArena::allocate] returns comes from the current
    chunk: it starts at the chunk's top rounded up to the arena alignment,
    the chunk's new top is right behind it, the alignment gap before it is
    the wastage block (starting at the old top), and the used-words counter
    grows by the requested size. *)
Theorem MetaspaceArena_allocate_bump (env : ArenaEnv) (a : MetaspaceArena) (n : nat) :
  is_empty (snd (fst (MetaspaceArena_allocate env a n))) = false ->
  let '(a', r, w) := MetaspaceArena_allocate env a n in
  exists c c' rest, _chunks a = c :: rest /\ _chunks a' = c' :: rest /\
    c_base c' = c_base c /\
    base r = align_up (top c) (_alignment_words a) /\ top c <= base r /\
    top c' = base r + n /\ base w = top c /\
    _total_used_words_counter a' = _total_used_words_counter a + n.
Proof.
  unfold MetaspaceArena_allocate.
  destruct (allocate_from_current_chunk env a n) as [[a1 r] w] eqn:E.
  destruct (allocate_from_current_chunk_chunks env a n a1 r w E) as (_ & Hcnt & Hnil & Hcons).
  destruct (is_empty r) eqn:Er.
  { destruct (allocate_from_new_chunk env a1 w n). cbn. rewrite Er. discriminate. }
  cbn. intros _.
  destruct (_chunks a) as [|c rest] eqn:Ec.
  { destruct (Hnil eq_refl) as (_ & -> & _). discriminate. }
  destruct (Hcons c rest eq_refl) as (c' & Hc' & Hb & _ & Hr).
  destruct (Hr eq_refl) as (Hbase & Htop & Hw).
  exists c, c', rest. repeat split; auto; try lia.
  rewrite Hbase. unfold is_empty in Er. change (_base r) with (base r) in Er. rewrite Hbase in Er.
  destruct (_alignment_words a) as [|al].
  - rewrite align_up_zero in Er. discriminate.
  - apply align_up_ge. lia.
Qed.

(** ** Routing of free blocks *)

Section FreeBlockInvariant.

Variable cfg : Config.
Variables P_bin P_tree_nc : MetaBlock -> Prop.
Variable P_tree_c : nat -> MetaBlock -> Prop.

(** Each free-block structure of a ClassLoaderMetaspaceImpl holds only
    blocks with its own property; the class-space one may depend on the
    klass alignment. *)
Definition fb_inv (s : CLMSImpl) : Prop :=
  Forall P_bin (_binlist_nc s) /\ Forall P_tree_nc (_blocktree_nc s) /\
  Forall (P_tree_c (_klass_alignment s)) (_blocktree_c s).

Hypothesis dealloc_inv :
  forall s b, fb_inv s -> fb_inv (deallocate_to_free_blocks cfg s b).

Lemma allocate_from_freeblocks_inv s ws k :
  fb_inv s -> fb_inv (snd (allocate_from_freeblocks cfg s ws k)).
Proof.
  intros Hs. unfold allocate_from_freeblocks.
  assert (Hlook : forall r s1,
    (if k then
       let '(r, t) := index_remove_block (_blocktree_c s) ws in (r, set_blocktree_c s t)
     else
       let '(r0, s0) :=
         if Nat.ltb ws BinList32_MaxWordSize then
           let '(r, l) := index_remove_block (_binlist_nc s) ws in (r, set_binlist_nc s l)
         else (MetaBlock_empty, s) in
       if is_empty r0 then
         let '(r, t) := index_remove_block (_blocktree_nc s0) ws in (r, set_blocktree_nc s0 t)
       else (r0, s0)) = (r, s1) -> fb_inv s1).
  { destruct Hs as (H1 & H2 & H3). intros r s1 E. destruct k.
    - pose proof (index_remove_block_forall _ _ ws H3) as H.
      destruct (index_remove_block (_blocktree_c s) ws). inversion E; subst.
      now repeat split.
    - destruct (if Nat.ltb ws BinList32_MaxWordSize then _ else _) as [r0 s0] eqn:E0.
      assert (G : fb_inv s0).
      { destruct (Nat.ltb ws BinList32_MaxWordSize).
        - pose proof (index_remove_block_forall _ _ ws H1) as H.
          destruct (index_remove_block (_binlist_nc s) ws). inversion E0; subst.
          now repeat split.
        - inversion E0; subst. now repeat split. }
      destruct (is_empty r0); [|inversion E; subst; exact G].
      destruct G as (G1 & G2 & G3).
      pose proof (index_remove_block_forall _ _ ws G2) as H.
      destruct (index_remove_block (_blocktree_nc s0) ws). inversion E; subst.
      now repeat split. }
  destruct (if k then _ else _) as [result s1] eqn:E.
  specialize (Hlook result s1 eq_refl).
  destruct (negb (is_empty result)); [|exact Hlook].
  destruct (split_off_tail result ws) as [hd rem]; cbn [snd].
  destruct (Nat.ltb minimum_allocation_words (word_size rem)); [now apply dealloc_inv | exact Hlook].
Qed.

Lemma allocate_body_inv env s ws k :
  fb_inv s -> fb_inv (fst (allocate_body cfg env s ws k)).
Proof.
  intros Hs. unfold allocate_body.
  pose proof (allocate_from_freeblocks_inv s ws k Hs) as H1.
  destruct (allocate_from_freeblocks cfg s ws k) as [result s1]; cbn in H1.
  destruct (is_empty result); [|exact H1].
  destruct (MetaspaceArena_allocate env _ ws) as [[a' r'] w]; cbn.
  assert (H2 : fb_inv (set_arena s1 k a')) by exact H1.
  destruct (negb (is_empty w)); [now apply dealloc_inv | exact H2].
Qed.

End FreeBlockInvariant.

(** The routing rule of [deallocate_to_free_blocks]: the bin list holds
    blocks of [minimum_allocation_words] to 31 words, the non-class block
    tree blocks of at least 32 words, and the class block tree only blocks
    in class space, aligned to the klass alignment and large enough for a
    Klass. *)
Definition clms_routing_ok (cfg : Config) (s : CLMSImpl) : Prop :=
  fb_inv (fun b => minimum_allocation_words <= word_size b < BinList32_MaxWordSize)
         (fun b => BinList32_MaxWordSize <= word_size b)
         (fun ka b => is_in_class_space cfg (base b) = true /\
                      is_aligned_ptr (base b) ka = true /\ sizeof_Klass cfg <= word_size b) s.

Lemma deallocate_to_free_blocks_routing cfg s b :
  clms_routing_ok cfg s -> clms_routing_ok cfg (deallocate_to_free_blocks cfg s b).
Proof.
  unfold clms_routing_ok, fb_inv. intros (H1 & H2 & H3). unfold deallocate_to_free_blocks.
  destruct (Nat.leb minimum_allocation_words (word_size b)) eqn:Em; [|now repeat split].
  apply Nat.leb_le in Em.
  destruct (is_in_class_space cfg (base b) && is_aligned_ptr (base b) (_klass_alignment s)
            && Nat.leb (sizeof_Klass cfg) (word_size b)) eqn:Ec.
  - apply andb_prop in Ec as [Ec Ek]. apply andb_prop in Ec as [Ecs Eal].
    apply Nat.leb_le in Ek. repeat split; cbn; unfold index_add_block; try assumption;
      constructor; [repeat split; first [assumption | lia] | assumption].
  - destruct (Nat.leb BinList32_MaxWordSize (word_size b)) eqn:Eb.
    + apply Nat.leb_le in Eb. repeat split; cbn; unfold index_add_block; try assumption;
      constructor; [repeat split; first [assumption | lia] | assumption].
    + apply Nat.leb_gt in Eb. repeat split; cbn; unfold index_add_block; try assumption;
      constructor; [repeat split; first [assumption | lia] | assumption].
Qed.

(** Every path that stores a free block in a ClassLoaderMetaspaceImpl --
    [deallocate], and inside [allocate] the re-insert of a split remainder
    and the deposit of arena wastage -- keeps the routing rule of the three
    free-block structures. *)
Theorem clms_free_blocks_routing (cfg : Config) (env : ArenaEnv) (s : CLMSImpl) :
  clms_routing_ok cfg s ->
  (forall b, clms_routing_ok cfg (ClassLoaderMetaspaceImpl_deallocate cfg s b)) /\
  (forall ws is_class,
     clms_routing_ok cfg (fst (ClassLoaderMetaspaceImpl_allocate cfg env s ws is_class))).
Proof.
  intros Hs. split.
  - intros b. now apply deallocate_to_free_blocks_routing.
  - intros ws k. unfold ClassLoaderMetaspaceImpl_allocate.
    pose proof (allocate_body_inv cfg _ _ _ (deallocate_to_free_blocks_routing cfg) env s ws k Hs).
    destruct (allocate_body cfg env s ws k); exact H.
Qed.

(** The routing rule of [FreeBlocks::add_block]: blocks below 32 words in
    the small-block list, larger ones in the non-class tree, and in the
    class tree only blocks in class space, aligned and large enough for a
    Klass.  There is no lower bound on the size of small blocks. *)
Definition freeblocks_routing_ok (cfg : Config) (fb : FreeBlocks) : Prop :=
  Forall (fun b => word_size b < MaxSmallBlocksWordSize) (_small_blocks_nc fb) /\
  Forall (fun b => MaxSmallBlocksWordSize <= word_size b) (_tree_nc fb) /\
  Forall (fun b => is_in_class_space cfg (base b) = true /\
                   is_aligned_ptr (base b) AllocationAlignmentWordSize = true /\
                   sizeof_Klass cfg <= word_size b) (_tree_c fb).

(** [FreeBlocks::add_block] and [FreeBlocks::remove_block] keep the
    routing rule of the three structures. *)
Theorem FreeBlocks_routing (cfg : Config) (fb : FreeBlocks) :
  freeblocks_routing_ok cfg fb ->
  (forall b, freeblocks_routing_ok cfg (FreeBlocks_add_block cfg fb b)) /\
  (forall ws for_class, freeblocks_routing_ok cfg (snd (FreeBlocks_remove_block fb ws for_class))).
Proof.
  unfold freeblocks_routing_ok. intros (H1 & H2 & H3). split.
  - intros b. unfold FreeBlocks_add_block.
    destruct (is_in_class_space cfg (base b) && is_aligned_ptr (base b) AllocationAlignmentWordSize
              && Nat.leb (sizeof_Klass cfg) (word_size b)) eqn:Ec.
    + apply andb_prop in Ec as [Ec Ek]. apply andb_prop in Ec as [Ecs Eal].
      apply Nat.leb_le in Ek. repeat split; cbn; unfold index_add_block; try assumption;
      constructor; [repeat split; first [assumption | lia] | assumption].
    + destruct (Nat.leb MaxSmallBlocksWordSize (word_size b)) eqn:Eb.
      * apply Nat.leb_le in Eb. repeat split; cbn; unfold index_add_block; try assumption;
      constructor; [repeat split; first [assumption | lia] | assumption].
      * apply Nat.leb_gt in Eb. repeat split; cbn; unfold index_add_block; try assumption;
      constructor; [repeat split; first [assumption | lia] | assumption].
  - intros ws k. unfold FreeBlocks_remove_block. destruct k.
    + pose proof (index_remove_block_forall _ _ ws H3).
      destruct (index_remove_block (_tree_c fb) ws). now repeat split.
    + destruct (if Nat.ltb ws BinList32_MaxWordSize then _ else _) as [r0 fb1] eqn:E0.
      assert (G : freeblocks_routing_ok cfg fb1).
      { destruct (Nat.ltb ws BinList32_MaxWordSize).
        - pose proof (index_remove_block_forall _ _ ws H1).
          destruct (index_remove_block (_small_blocks_nc fb) ws). inversion E0; subst.
          now repeat split.
        - inversion E0; subst. now repeat split. }
      destruct (is_empty r0); [|exact G].
      destruct G as (G1 & G2 & G3).
      pose proof (index_remove_block_forall _ _ ws G1).
      destruct (index_remove_block (_small_blocks_nc fb1) ws). now repeat split.
Qed.

(** ** VirtualSpaceList *)

(** No node has carved more than its size. *)
Definition vsl_nodes_ok (v : VirtualSpaceList) : Prop :=
  Forall (fun n => vsn_used n <= vsn_word_size n) (_nodes v).

Section VirtualSpaceListProps.

Variable vc : VSLConfig.
Local Abbreviation R := (MAX_CHUNK_WORD_SIZE vc).

Definition carved (n : VirtualSpaceNode) (k : nat) : VirtualSpaceNode :=
  {| vsn_base := vsn_base n; vsn_word_size := vsn_word_size n; vsn_used := vsn_used n + k * R |}.

Definition root_chunks_from (b k : nat) : list Metachunk :=
  map (fun i => root_chunk_at vc (b + i * R)) (seq 0 k).

Lemma root_chunks_from_S b k :
  root_chunks_from b (S k) = root_chunk_at vc b :: root_chunks_from (b + R) k.
Proof.
  unfold root_chunks_from. cbn [seq map]. f_equal; [f_equal; lia|].
  rewrite <- seq_shift, map_map. apply map_ext. intros i. f_equal. lia.
Qed.

Lemma vsn_allocate_root_chunk_cases n :
  (R <= vsn_free_words n /\
   vsn_allocate_root_chunk vc n = (Some (root_chunk_at vc (vsn_base n + vsn_used n)), carved n 1))
  \/ (vsn_free_words n < R /\ vsn_allocate_root_chunk vc n = (None, n)).
Proof.
  unfold vsn_allocate_root_chunk, carved.
  destruct (Nat.leb R (vsn_free_words n)) eqn:E.
  - left. apply Nat.leb_le in E. split; [exact E|]. repeat f_equal. lia.
  - right. apply Nat.leb_gt in E. auto.
Qed.

Lemma set_nodes_set_nodes v a b : set_nodes (set_nodes v a) b = set_nodes v b.
Proof. reflexivity. Qed.

Lemma allocate_n_root_chunks_spec k v out n rest :
  _nodes v = n :: rest -> k * R <= vsn_free_words n ->
  allocate_n_root_chunks vc v k out
  = (set_nodes v (carved n k :: rest), out ++ root_chunks_from (vsn_base n + vsn_used n) k).
Proof.
  revert v out n; induction k as [|k IH]; intros v out n Hn Hk; cbn [allocate_n_root_chunks].
  - unfold carved. rewrite app_nil_r. destruct v as [ns s e]; cbn in *; subst ns.
    unfold set_nodes; cbn. repeat f_equal. destruct n; cbn. f_equal. lia.
  - rewrite Hn. destruct (vsn_allocate_root_chunk_cases n) as [[Hle ->] | [Hlt _]];
      [|cbn in Hk; lia].
    rewrite (IH (set_nodes v (carved n 1 :: rest)) _ (carved n 1) eq_refl).
    + rewrite set_nodes_set_nodes, root_chunks_from_S, <- app_assoc. cbn.
      unfold carved; cbn.
      replace (vsn_used n + (R + 0) + k * R) with (vsn_used n + (R + k * R)) by lia.
      replace (vsn_base n + (vsn_used n + (R + 0))) with (vsn_base n + vsn_used n + R) by lia.
      reflexivity.
    + unfold carved, vsn_free_words in *. cbn in *. lia.
Qed.

Lemma salvage_loop_spec fuel n salv :
  0 < R -> vsn_free_words n < fuel ->
  exists k, salvage_loop vc n salv fuel
            = (carved n k, salv ++ root_chunks_from (vsn_base n + vsn_used n) k) /\
            vsn_free_words (carved n k) < R.
Proof.
  intros HR. revert n salv; induction fuel as [|fuel IH]; intros n salv Hf; [lia|].
  cbn [salvage_loop]. destruct (vsn_allocate_root_chunk_cases n) as [[Hle ->] | [Hlt ->]].
  - destruct (IH (carved n 1) (salv ++ [root_chunk_at vc (vsn_base n + vsn_used n)]))
      as (k & -> & Hk).
    { unfold carved, vsn_free_words in *. cbn. lia. }
    exists (S k). split.
    + rewrite root_chunks_from_S, <- app_assoc. unfold carved in *; cbn in *.
      replace (vsn_used n + (R + 0) + k * R) with (vsn_used n + (R + k * R)) by lia.
      replace (vsn_base n + (vsn_used n + (R + 0))) with (vsn_base n + vsn_used n + R) by lia.
      reflexivity.
    + unfold carved, vsn_free_words in *; cbn in *. lia.
  - exists 0. split.
    + unfold carved. rewrite app_nil_r. destruct n; cbn. repeat f_equal. lia.
    + unfold carved, vsn_free_words in *; cbn in *. lia.
Qed.

Lemma carved_ok n k : k * R <= vsn_free_words n -> vsn_used n <= vsn_word_size n ->
  vsn_used (carved n k) <= vsn_word_size (carved n k).
Proof. unfold carved, vsn_free_words. cbn. intros. destruct k; lia. Qed.

End VirtualSpaceListProps.

Section VirtualSpaceListCases.

Variable vc : VSLConfig.
Local Abbreviation R := (MAX_CHUNK_WORD_SIZE vc).

Lemma salvage_loop_carves fuel n salv :
  exists k, fst (salvage_loop vc n salv fuel) = carved vc n k /\ k * R <= vsn_free_words n.
Proof.
  revert n salv; induction fuel as [|fuel IH]; intros n salv.
  - exists 0. cbn. split; [|lia]. unfold carved. destruct n; cbn. f_equal. lia.
  - cbn [salvage_loop]. destruct (vsn_allocate_root_chunk_cases vc n) as [[Hle ->] | [Hlt ->]].
    + destruct (IH (carved vc n 1) (salv ++ [root_chunk_at vc (vsn_base n + vsn_used n)]))
        as (k & -> & Hk).
      exists (S k). unfold carved, vsn_free_words in *; cbn in *. split; [|lia].
      f_equal. lia.
    + exists 0. cbn. split; [|lia]. unfold carved. destruct n; cbn. f_equal. lia.
Qed.

Lemma salvage_first_node_ok v :
  vsl_nodes_ok v ->
  vsl_nodes_ok (salvage_first_node vc v) /\ _can_expand (salvage_first_node vc v) = _can_expand v.
Proof.
  unfold salvage_first_node, vsl_nodes_ok. destruct (_nodes v) as [|n rest] eqn:Hn.
  - rewrite Hn. auto.
  - intros H. inversion H as [|? ? Hn0 Hr]; subst.
    destruct (salvage_loop_carves (S (vsn_free_words n)) n (_salvaged_root_chunks v))
      as (k & Hk & Hle).
    destruct (salvage_loop vc n _ _) as [n' salv]. cbn in Hk |- *. subst n'.
    split; [|reflexivity]. constructor; [|exact Hr]. now apply carved_ok.
Qed.

Definition need_new_node (v : VirtualSpaceList) (words : nat) : Prop :=
  match _nodes v with [] => True | n :: _ => vsn_free_words n < words end.

Lemma allocate_multiple_root_chunks_cases v num out rb :
  vsl_nodes_ok v ->
  (_can_expand v = false /\ need_new_node v (num * R) /\
   allocate_multiple_root_chunks vc v num out rb = (false, v, out)) \/
  (exists v0 n rest, _nodes v0 = n :: rest /\ num * R <= vsn_free_words n /\
     vsl_nodes_ok v0 /\ _can_expand v0 = _can_expand v /\
     (_can_expand v = false -> v0 = v) /\
     allocate_multiple_root_chunks vc v num out rb
     = (true, set_nodes v0 (carved vc n num :: rest),
        out ++ root_chunks_from vc (vsn_base n + vsn_used n) num)).
Proof.
  intros Hok. unfold allocate_multiple_root_chunks, need_new_node.
  set (fresh := fun v1 => create_new_node v1
                  (Nat.max (num * R) (virtual_space_node_default_word_size vc)) rb).
  assert (Hfresh : forall v1, vsl_nodes_ok v1 ->
    exists v0 n rest, _nodes v0 = n :: rest /\ num * R <= vsn_free_words n /\
      vsl_nodes_ok v0 /\ _can_expand v0 = _can_expand v1 /\
      allocate_n_root_chunks vc (fresh v1) num out
      = (set_nodes v0 (carved vc n num :: rest),
         out ++ root_chunks_from vc (vsn_base n + vsn_used n) num)).
  { intros v1 H1. exists (fresh v1).
    exists {| vsn_base := rb; vsn_word_size := Nat.max (num * R)
                (virtual_space_node_default_word_size vc); vsn_used := 0 |}, (_nodes v1).
    split; [reflexivity|]. split; [unfold vsn_free_words; cbn; lia|].
    split; [constructor; [cbn; lia | exact H1]|]. split; [reflexivity|].
    apply allocate_n_root_chunks_spec; [reflexivity | unfold vsn_free_words; cbn; lia]. }
  destruct (_nodes v) as [|n rest] eqn:Hn.
  - destruct (_can_expand v) eqn:Ec; [right | left; auto].
    destruct (Hfresh v Hok) as (v0 & n0 & rest0 & H0 & Hf & Hok0 & Hc & E).
    fold (fresh v). rewrite E. exists v0, n0, rest0. repeat split; auto; congruence.
  - destruct (Nat.ltb (vsn_free_words n) (num * R)) eqn:El.
    + apply Nat.ltb_lt in El.
      destruct (_can_expand v) eqn:Ec; [right | left; auto].
      destruct (salvage_first_node_ok v Hok) as [Hs Hcs].
      destruct (Hfresh (salvage_first_node vc v) Hs) as (v0 & n0 & rest0 & H0 & Hf & Hok0 & Hc & E).
      fold (fresh (salvage_first_node vc v)). rewrite E.
      exists v0, n0, rest0. repeat split; auto; congruence.
    + apply Nat.ltb_ge in El. right. exists v, n, rest.
      rewrite (allocate_n_root_chunks_spec vc num v out n rest Hn El).
      repeat split; auto.
Qed.

End VirtualSpaceListCases.

Section VirtualSpaceListRoot.

Variable vc : VSLConfig.
Local Abbreviation R := (MAX_CHUNK_WORD_SIZE vc).

Definition allocate_from_first_node (v1 : VirtualSpaceList) : option Metachunk * VirtualSpaceList :=
  match _nodes v1 with
  | [] => (None, v1)
  | n :: rest => let '(c, n') := vsn_allocate_root_chunk vc n in (c, set_nodes v1 (n' :: rest))
  end.

Lemma VirtualSpaceList_allocate_root_chunk_unfold v rb :
  VirtualSpaceList_allocate_root_chunk vc v rb =
  match _salvaged_root_chunks v with
  | c :: r => (Some c, set_salvaged v r)
  | [] =>
      if match _nodes v with [] => true | n :: _ => Nat.ltb (vsn_free_words n) R end
      then if _can_expand v
           then allocate_from_first_node
                  (create_new_node v (virtual_space_node_default_word_size vc) rb)
           else (None, v)
      else allocate_from_first_node v
  end.
Proof.
  unfold VirtualSpaceList_allocate_root_chunk, allocate_from_first_node.
  destruct (_salvaged_root_chunks v); [|reflexivity].
  destruct (match _nodes v with [] => true | _ => _ end); [destruct (_can_expand v)|]; reflexivity.
Qed.

Lemma allocate_from_first_node_spec v1 :
  vsl_nodes_ok v1 ->
  vsl_nodes_ok (snd (allocate_from_first_node v1)) /\
  map (fun n => (vsn_base n, vsn_word_size n)) (_nodes (snd (allocate_from_first_node v1)))
  = map (fun n => (vsn_base n, vsn_word_size n)) (_nodes v1) /\
  (fst (allocate_from_first_node v1) = None <-> need_new_node v1 R).
Proof.
  unfold allocate_from_first_node, need_new_node, vsl_nodes_ok.
  destruct (_nodes v1) as [|n rest] eqn:Hn.
  - cbn. rewrite Hn. repeat split; auto.
  - intros H. inversion H as [|? ? Hn0 Hr]; subst.
    destruct (vsn_allocate_root_chunk_cases vc n) as [[Hle ->] | [Hlt ->]]; cbn.
    + split; [constructor; [apply (carved_ok vc n 1); [cbn; lia | exact Hn0] | exact Hr]|].
      split; [reflexivity|]. split; [discriminate | lia].
    + repeat split; auto.
Qed.

End VirtualSpaceListRoot.

(** The list never lets a node carve more than its size:
    [allocate_root_chunk], [salvage_first_node] and
    [allocate_multiple_root_chunks] keep used <= size for every node. *)
Theorem VirtualSpaceList_nodes_ok_preserved (vc : VSLConfig) (v : VirtualSpaceList)
  (num : nat) (out : list Metachunk) (reserve_base : nat) :
  vsl_nodes_ok v ->
  vsl_nodes_ok (snd (VirtualSpaceList_allocate_root_chunk vc v reserve_base)) /\
  vsl_nodes_ok (salvage_first_node vc v) /\
  vsl_nodes_ok (snd (fst (allocate_multiple_root_chunks vc v num out reserve_base))).
Proof.
  intros Hok. split; [|split].
  - rewrite VirtualSpaceList_allocate_root_chunk_unfold.
    destruct (_salvaged_root_chunks v); [|exact Hok].
    destruct (match _nodes v with [] => true | _ => _ end); [destruct (_can_expand v)|].
    + apply allocate_from_first_node_spec. constructor; [cbn; lia | exact Hok].
    + exact Hok.
    + now apply allocate_from_first_node_spec.
  - now apply salvage_first_node_ok.
  - destruct (allocate_multiple_root_chunks_cases vc v num out reserve_base Hok)
      as [(_ & _ & ->) | (v0 & n & rest & Hn & Hf & Hok0 & _ & _ & ->)]; [exact Hok|].
    cbn. unfold vsl_nodes_ok in *. rewrite Hn in Hok0.
    inversion Hok0 as [|? ? Hn0 Hr]; subst. constructor; [|exact Hr].
    now apply carved_ok.
Qed.

(** [allocate_multiple_root_chunks(num, out)], when it succeeds, appends to
    [out] [num] root chunks lying back to back in memory, carved from the
    first node, inside its range. *)
Theorem allocate_multiple_root_chunks_adjacent (vc : VSLConfig) (v : VirtualSpaceList)
  (num : nat) (out : list Metachunk) (reserve_base : nat) (v' : VirtualSpaceList)
  (out' : list Metachunk) :
  vsl_nodes_ok v ->
  allocate_multiple_root_chunks vc v num out reserve_base = (true, v', out') ->
  exists n rest b, _nodes v' = n :: rest /\ vsn_base n <= b /\
    b + num * MAX_CHUNK_WORD_SIZE vc = vsn_base n + vsn_used n /\
    vsn_used n <= vsn_word_size n /\
    out' = out ++ map (fun i => root_chunk_at vc (b + i * MAX_CHUNK_WORD_SIZE vc)) (seq 0 num).
Proof.
  intros Hok E.
  destruct (allocate_multiple_root_chunks_cases vc v num out reserve_base Hok)
    as [(_ & _ & E') | (v0 & n & rest & Hn & Hf & Hok0 & _ & _ & E')];
    rewrite E' in E; [discriminate|]. inversion E; subst.
  exists (carved vc n num), rest, (vsn_base n + vsn_used n).
  unfold vsl_nodes_ok in Hok0. rewrite Hn in Hok0. inversion Hok0 as [|? ? Hn0 Hr]; subst.
  unfold carved, vsn_free_words in *. cbn. repeat split; try lia; reflexivity.
Qed.

(** [salvage_first_node()] carves root chunks off the first node until less
    than a root chunk is left, and appends them, back to back, to the
    salvaged root chunks. *)
Theorem salvage_first_node_spec (vc : VSLConfig) (v : VirtualSpaceList)
  (n : VirtualSpaceNode) (rest : list VirtualSpaceNode) :
  0 < MAX_CHUNK_WORD_SIZE vc -> _nodes v = n :: rest ->
  exists k n', _nodes (salvage_first_node vc v) = n' :: rest /\
    vsn_base n' = vsn_base n /\ vsn_word_size n' = vsn_word_size n /\
    vsn_used n' = vsn_used n + k * MAX_CHUNK_WORD_SIZE vc /\
    vsn_free_words n' < MAX_CHUNK_WORD_SIZE vc /\
    _salvaged_root_chunks (salvage_first_node vc v)
    = _salvaged_root_chunks v ++
      map (fun i => root_chunk_at vc (vsn_base n + vsn_used n + i * MAX_CHUNK_WORD_SIZE vc))
          (seq 0 k).
Proof.
  intros HR Hn. unfold salvage_first_node. rewrite Hn.
  destruct (salvage_loop_spec vc (S (vsn_free_words n)) n (_salvaged_root_chunks v) HR
              ltac:(lia)) as (k & -> & Hk).
  exists k, (carved vc n k). cbn. repeat split; auto.
Qed.

(** A list that cannot expand (the class-space list) never reserves
    memory: its nodes keep their ranges; [allocate_root_chunk] returns null
    exactly when no salvaged root chunk is left and the node has less than
    a root chunk of space, and [allocate_multiple_root_chunks] fails
    exactly when the node has less than the [num] root chunks of space. *)
Theorem VirtualSpaceList_non_expandable (vc : VSLConfig) (v : VirtualSpaceList)
  (num : nat) (out : list Metachunk) (reserve_base : nat) :
  _can_expand v = false -> vsl_nodes_ok v ->
  map (fun n => (vsn_base n, vsn_word_size n))
      (_nodes (snd (VirtualSpaceList_allocate_root_chunk vc v reserve_base)))
  = map (fun n => (vsn_base n, vsn_word_size n)) (_nodes v) /\
  map (fun n => (vsn_base n, vsn_word_size n))
      (_nodes (snd (fst (allocate_multiple_root_chunks vc v num out reserve_base))))
  = map (fun n => (vsn_base n, vsn_word_size n)) (_nodes v) /\
  (fst (VirtualSpaceList_allocate_root_chunk vc v reserve_base) = None <->
   _salvaged_root_chunks v = [] /\ need_new_node v (MAX_CHUNK_WORD_SIZE vc)) /\
  (fst (fst (allocate_multiple_root_chunks vc v num out reserve_base)) = false <->
   need_new_node v (num * MAX_CHUNK_WORD_SIZE vc)).
Proof.
  intros Hc Hok. split; [|split; [|split]].
  - rewrite VirtualSpaceList_allocate_root_chunk_unfold.
    destruct (_salvaged_root_chunks v); [|reflexivity].
    destruct (match _nodes v with [] => true | _ => _ end); [rewrite Hc; reflexivity|].
    now apply allocate_from_first_node_spec.
  - destruct (allocate_multiple_root_chunks_cases vc v num out reserve_base Hok)
      as [(_ & _ & ->) | (v0 & n & rest & Hn & Hf & Hok0 & _ & Hv0 & ->)]; [reflexivity|].
    specialize (Hv0 Hc). subst v0. cbn. rewrite Hn. reflexivity.
  - rewrite VirtualSpaceList_allocate_root_chunk_unfold.
    destruct (_salvaged_root_chunks v) as [|c r]; [|split; [discriminate | intros [[=] _]]].
    unfold need_new_node.
    destruct (_nodes v) as [|n rest] eqn:Hn.
    + rewrite Hc. cbn. tauto.
    + destruct (Nat.ltb (vsn_free_words n) (MAX_CHUNK_WORD_SIZE vc)) eqn:El.
      * rewrite Hc. apply Nat.ltb_lt in El. cbn. tauto.
      * apply Nat.ltb_ge in El. destruct (allocate_from_first_node_spec vc v Hok) as (_ & _ & Hiff).
        unfold need_new_node in Hiff. rewrite Hn in Hiff. rewrite Hiff. split; [lia|].
        intros [_ H]. lia.
  - destruct (allocate_multiple_root_chunks_cases vc v num out reserve_base Hok)
      as [(_ & Hnn & ->) | (v0 & n & rest & Hn & Hf & Hok0 & _ & Hv0 & ->)];
      [cbn; tauto|].
    specialize (Hv0 Hc). subst v0. cbn. unfold need_new_node. rewrite Hn.
    split; [discriminate | lia].
Qed.

(** ** Instances *)

Definition dl123 : DlList.t nat := {| DlList.elems := [1; 2; 3]; DlList._num := 3 |}.
Definition dl45 : DlList.t nat := {| DlList.elems := [4; 5]; DlList._num := 2 |}.

Lemma DlList_single_ops_keep_counter_witness :
  DlList.counter_ok dl123 /\
  DlList.counter_ok (DlList.push_front dl123 7) /\ DlList.counter_ok (DlList.push_back dl123 7) /\
  DlList.counter_ok (snd (DlList.pop_front Nat.eqb dl123)) /\
  DlList.counter_ok (snd (DlList.pop_back dl123)).
Proof.
  split; [reflexivity|].
  apply (DlList_single_ops_keep_counter nat Nat.eqb Nat.eqb_refl dl123 7). reflexivity.
Defined.


Lemma DlList_push_pop_roundtrip_witness :
  DlList.counter_ok dl123 /\
  DlList.pop_front Nat.eqb (DlList.push_front dl123 7) = (Some 7, dl123) /\
  DlList.pop_back (DlList.push_back dl123 7) = (Some 7, dl123).
Proof.
  split; [reflexivity|].
  apply (DlList_push_pop_roundtrip nat Nat.eqb Nat.eqb_refl dl123 7). reflexivity.
Defined.

Lemma DlList_add_list_splices_witness :
  DlList.counter_ok dl123 /\ DlList.counter_ok dl45 /\
  DlList.elems (fst (DlList.add_list_at_front dl123 dl45)) = [4; 5; 1; 2; 3] /\
  DlList.elems (fst (DlList.add_list_at_back dl123 dl45)) = [1; 2; 3; 4; 5] /\
  snd (DlList.add_list_at_back dl123 dl45) = DlList.empty_list.
Proof.
  destruct (DlList_add_list_splices nat dl123 dl45 eq_refl eq_refl)
    as (Hf & _ & _ & Hb & _ & He).
  split; [reflexivity|]. split; [reflexivity|].
  split; [exact Hf|]. split; [exact Hb | exact He].
Defined.

(** A free chunk list vector with three levels: level 1 holds a chunk with
    5 committed words in front of a fully uncommitted one. *)
Definition fc_committed : Metachunk :=
  {| c_base := 128; c_word_size := 64; c_committed := 5; c_used := 0 |}.
Definition fc_uncommitted : Metachunk :=
  {| c_base := 192; c_word_size := 64; c_committed := 0; c_used := 0 |}.
Definition fclv : FreeChunkListVector := [[]; [fc_committed; fc_uncommitted]; []].

Lemma search_chunk_ascending_spec_witness :
  search_chunk_ascending fclv 0 2 3 = (Some fc_committed, remove_at_level fclv 1 fc_committed) /\
  (exists lvl, 0 <= lvl <= 2 /\ In fc_committed (list_for_level fclv lvl) /\
     3 <= committed_words fc_committed /\
     remove_at_level fclv 1 fc_committed = remove_at_level fclv lvl fc_committed /\
     S (FreeChunkListVector_num_chunks (remove_at_level fclv 1 fc_committed))
     = FreeChunkListVector_num_chunks fclv) /\
  search_chunk_ascending fclv 0 2 6 = (None, fclv) /\
  (forall lvl c, 0 <= lvl <= 2 -> In c (list_for_level fclv lvl) -> committed_words c < 6).
Proof.
  destruct (search_chunk_ascending_spec fclv 0 2 3) as [H1 _].
  destruct (search_chunk_ascending_spec fclv 0 2 6) as [_ H2].
  split; [reflexivity|]. split; [apply H1; reflexivity|]. split; [reflexivity|].
  apply (H2 fclv eq_refl). intros l Hl. destruct l as [|[|[|l]]]; try reflexivity; lia.
Defined.

Lemma search_chunk_descending_spec_witness :
  search_chunk_descending fclv 2 3 = (Some fc_committed, remove_at_level fclv 1 fc_committed) /\
  (exists lvl, lvl <= 2 /\ In fc_committed (list_for_level fclv lvl) /\
     3 <= committed_words fc_committed /\
     remove_at_level fclv 1 fc_committed = remove_at_level fclv lvl fc_committed /\
     S (FreeChunkListVector_num_chunks (remove_at_level fclv 1 fc_committed))
     = FreeChunkListVector_num_chunks fclv) /\
  search_chunk_descending fclv 2 6 = (None, fclv) /\
  (forall lvl c, lvl <= 2 -> In c (list_for_level fclv lvl) -> committed_words c < 6).
Proof.
  destruct (search_chunk_descending_spec fclv 2 3) as [H1 _].
  destruct (search_chunk_descending_spec fclv 2 6) as [_ H2].
  split; [reflexivity|]. split; [apply H1; reflexivity|]. split; [reflexivity|].
  apply (H2 fclv eq_refl). intros l Hl. destruct l as [|[|[|l]]]; try reflexivity; lia.
Defined.

Lemma FreeChunkListVector_add_spec_witness :
  1 < length fclv /\
  In fc_uncommitted (list_for_level (FreeChunkListVector_add fclv 1 fc_uncommitted) 1) /\
  FreeChunkListVector_num_chunks (FreeChunkListVector_add fclv 1 fc_uncommitted) = 3.
Proof.
  assert (Hord : forall l, verify_order false (list_for_level fclv l) = true)
    by (intros l; destruct l as [|[|[|l]]]; try reflexivity;
        unfold list_for_level; simpl; destruct l; reflexivity).
  destruct (FreeChunkListVector_add_spec fclv 1 fc_uncommitted ltac:(simpl; lia) Hord)
    as (Hin & Hn & _).
  split; [simpl; lia|]. split; [exact Hin | rewrite Hn; reflexivity].
Defined.

Lemma aligned_block_inside_witness :
  is_empty (aligned_block {| _base := 5; _word_size := 10 |} 4) = false /\
  Nat.modulo (base (aligned_block {| _base := 5; _word_size := 10 |} 4)) 4 = 0 /\
  5 <= base (aligned_block {| _base := 5; _word_size := 10 |} 4) < 15 /\
  word_size (aligned_block {| _base := 5; _word_size := 10 |} 4) = 0.
Proof.
  split; [reflexivity|].
  apply (aligned_block_inside {| _base := 5; _word_size := 10 |} 4); [lia | reflexivity].
Defined.

(** An arena whose current chunk (256 words at 512) has 3 used and 100
    committed words. *)
Definition arena_part_committed : MetaspaceArena :=
  {| _alignment_words := 2;
     _chunks := [{| c_base := 512; c_word_size := 256; c_committed := 100; c_used := 3 |}];
     _total_used_words_counter := 3 |}.

Lemma salvage_chunk_spec_witness :
  is_empty (snd (salvage_chunk arena_part_committed)) = false /\
  (exists c, current_chunk arena_part_committed = Some c /\
     base (snd (salvage_chunk arena_part_committed)) = top c /\
     word_size (snd (salvage_chunk arena_part_committed)) = 0) /\
  _total_used_words_counter (fst (salvage_chunk arena_part_committed)) = 100.
Proof.
  destruct (salvage_chunk_spec arena_part_committed) as (_ & _ & _ & _ & H).
  split; [reflexivity|]. split; [apply H; reflexivity | reflexivity].
Defined.

Lemma env_fresh_chunk_ok : forall k m c, env_get_chunk env_fresh_chunk k m = Some c -> chunk_ok c.
Proof. intros k m c [= <-]. unfold chunk_ok. cbn. lia. Qed.

Lemma arena_part_committed_ok : Forall chunk_ok (_chunks arena_part_committed).
Proof. constructor; [unfold chunk_ok; cbn; lia | constructor]. Qed.

Lemma MetaspaceArena_allocate_keeps_chunks_ok_witness :
  Forall chunk_ok (_chunks (fst (fst (MetaspaceArena_allocate env_fresh_chunk
                                        arena_part_committed 254)))) /\
  length (_chunks (fst (fst (MetaspaceArena_allocate env_fresh_chunk
                                arena_part_committed 254)))) = 2.
Proof.
  split; [|reflexivity].
  apply (MetaspaceArena_allocate_keeps_chunks_ok env_fresh_chunk arena_part_committed 254
           env_fresh_chunk_ok arena_part_committed_ok).
Defined.

Lemma usage_numbers_ordered_witness :
  usage_numbers arena_part_committed = (3, 100, 256) /\
  3 = sum_used_words (_chunks arena_part_committed) /\ 3 <= 100 <= 256.
Proof.
  pose proof (usage_numbers_ordered arena_part_committed arena_part_committed_ok) as H.
  split; [reflexivity|]. exact H.
Defined.

Lemma MetaspaceArena_allocate_bump_witness :
  is_empty (snd (fst (MetaspaceArena_allocate env_fresh_chunk arena_part_committed 8))) = false /\
  exists c c' rest, _chunks arena_part_committed = c :: rest /\
    _chunks (fst (fst (MetaspaceArena_allocate env_fresh_chunk arena_part_committed 8)))
    = c' :: rest /\
    c_base c' = c_base c /\
    base (snd (fst (MetaspaceArena_allocate env_fresh_chunk arena_part_committed 8)))
    = align_up (top c) 2 /\
    top c <= base (snd (fst (MetaspaceArena_allocate env_fresh_chunk arena_part_committed 8))) /\
    top c' = base (snd (fst (MetaspaceArena_allocate env_fresh_chunk arena_part_committed 8)))
             + 8 /\
    base (snd (MetaspaceArena_allocate env_fresh_chunk arena_part_committed 8)) = top c /\
    _total_used_words_counter
      (fst (fst (MetaspaceArena_allocate env_fresh_chunk arena_part_committed 8))) = 3 + 8.
Proof.
  split; [reflexivity|].
  exact (MetaspaceArena_allocate_bump env_fresh_chunk arena_part_committed 8 eq_refl).
Defined.

Lemma clms_free_blocks_routing_witness :
  clms_routing_ok cfg_no_class_space empty_clms /\
  clms_routing_ok cfg_no_class_space
    (ClassLoaderMetaspaceImpl_deallocate cfg_no_class_space empty_clms
       {| _base := 640; _word_size := 40 |}).
Proof.
  assert (H : clms_routing_ok cfg_no_class_space empty_clms)
    by (repeat split; constructor).
  split; [exact H|].
  apply (clms_free_blocks_routing cfg_no_class_space env_fresh_chunk empty_clms H).
Defined.

Lemma FreeBlocks_routing_witness :
  freeblocks_routing_ok cfg_no_class_space empty_freeblocks /\
  freeblocks_routing_ok cfg_no_class_space
    (FreeBlocks_add_block cfg_no_class_space empty_freeblocks {| _base := 640; _word_size := 0 |}).
Proof.
  assert (H : freeblocks_routing_ok cfg_no_class_space empty_freeblocks)
    by (repeat split; constructor).
  split; [exact H|].
  apply (FreeBlocks_routing cfg_no_class_space empty_freeblocks H).
Defined.

(** Root chunks of 4 words, nodes of 16 words by default; one node at 64
    of 16 words with 4 carved. *)
Definition vc_small : VSLConfig :=
  {| MAX_CHUNK_WORD_SIZE := 4; virtual_space_node_default_word_size := 16 |}.
Definition node64 : VirtualSpaceNode := {| vsn_base := 64; vsn_word_size := 16; vsn_used := 4 |}.
Definition vsl_expandable : VirtualSpaceList :=
  {| _nodes := [node64]; _salvaged_root_chunks := []; _can_expand := true |}.
Definition vsl_fixed : VirtualSpaceList :=
  {| _nodes := [node64]; _salvaged_root_chunks := []; _can_expand := false |}.

Lemma node64_ok : vsl_nodes_ok vsl_expandable.
Proof. constructor; [cbn; lia | constructor]. Qed.

Lemma vsl_fixed_ok : vsl_nodes_ok vsl_fixed.
Proof. constructor; [cbn; lia | constructor]. Qed.

Lemma VirtualSpaceList_nodes_ok_preserved_witness :
  vsl_nodes_ok (snd (fst (allocate_multiple_root_chunks vc_small vsl_expandable 4 [] 1024))) /\
  length (_nodes (snd (fst (allocate_multiple_root_chunks vc_small vsl_expandable 4 [] 1024))))
  = 2.
Proof.
  split; [|reflexivity].
  apply (VirtualSpaceList_nodes_ok_preserved vc_small vsl_expandable 4 [] 1024 node64_ok).
Defined.

Lemma allocate_multiple_root_chunks_adjacent_witness :
  allocate_multiple_root_chunks vc_small vsl_expandable 2 [] 1024
  = (true, snd (fst (allocate_multiple_root_chunks vc_small vsl_expandable 2 [] 1024)),
     snd (allocate_multiple_root_chunks vc_small vsl_expandable 2 [] 1024)) /\
  exists n rest b,
    _nodes (snd (fst (allocate_multiple_root_chunks vc_small vsl_expandable 2 [] 1024)))
    = n :: rest /\ vsn_base n <= b /\ b + 2 * 4 = vsn_base n + vsn_used n /\
    vsn_used n <= vsn_word_size n /\
    snd (allocate_multiple_root_chunks vc_small vsl_expandable 2 [] 1024)
    = [] ++ map (fun i => root_chunk_at vc_small (b + i * 4)) (seq 0 2).
Proof.
  split; [reflexivity|].
  exact (allocate_multiple_root_chunks_adjacent vc_small vsl_expandable 2 [] 1024 _ _
           node64_ok eq_refl).
Defined.

Lemma salvage_first_node_spec_witness :
  0 < MAX_CHUNK_WORD_SIZE vc_small /\
  exists k n', _nodes (salvage_first_node vc_small vsl_expandable) = n' :: [] /\
    vsn_base n' = 64 /\ vsn_word_size n' = 16 /\ vsn_used n' = 4 + k * 4 /\
    vsn_free_words n' < 4 /\
    _salvaged_root_chunks (salvage_first_node vc_small vsl_expandable)
    = [] ++ map (fun i => root_chunk_at vc_small (64 + 4 + i * 4)) (seq 0 k).
Proof.
  split; [cbn; lia|].
  exact (salvage_first_node_spec vc_small vsl_expandable node64 [] ltac:(cbn; lia) eq_refl).
Defined.

Lemma VirtualSpaceList_non_expandable_witness :
  _can_expand vsl_fixed = false /\
  fst (fst (allocate_multiple_root_chunks vc_small vsl_fixed 4 [] 1024)) = false /\
  need_new_node vsl_fixed (4 * 4).
Proof.
  destruct (VirtualSpaceList_non_expandable vc_small vsl_fixed 4 [] 1024 eq_refl vsl_fixed_ok)
    as (_ & _ & _ & H).
  split; [reflexivity|]. split; [reflexivity|]. apply H. reflexivity.
Defined.
